(** * AIDGI: the AI Disruption and Growth Index engine of [AIDGI.py]

    A shallow embedding of the computational core of the Streamlit script
    (weight normalisation, the composite score, the ranking, the drill-down
    filter and the long-format projection), followed by the properties its
    specification states.

    Numbers.  The script computes with Python floats and NumPy float64.  They
    are modelled here as real numbers: rounding, overflow and the special
    values (infinities, NaN) are not represented.  The one exception Python
    raises in this code, [ZeroDivisionError] on a float division by [0.0], is
    modelled explicitly.

    Where rounding decides a statement, the same lines are embedded a second
    time on binary64 floats (module [Double]).

    Sorting.  The script sorts through pandas with the default
    [kind='quicksort'].  On a table of seven rows NumPy's portable quicksort
    is an insertion sort, modelled by [sort_values_small].  Statements that
    need no more than a descending rearrangement are proved for every routine
    that gives one. *)

From Stdlib Require Import Reals Lra List String Permutation Sorted.
From Stdlib Require Floats.
Import ListNotations.

Open Scope R_scope.

(** ** Python results: a value, or a raised exception named by its class *)

Module Py.

Inductive result (A : Type) : Type :=
| Ok (a : A)
| Raise (exc : string).

Arguments Ok {A} a.
Arguments Raise {A} exc.

Definition bind {A B : Type} (m : result A) (k : A -> result B) : result B :=
  match m with
  | Ok a => k a
  | Raise e => Raise e
  end.

(** [a / b] on Python floats: a zero divisor raises. *)
Definition truediv (a b : R) : result R :=
  if Req_dec_T b 0 then Raise "ZeroDivisionError"%string else Ok (a / b).

End Py.

Import Py.

Notation "x <- m ;; k" := (Py.bind m (fun x => k))
  (at level 61, m at next level, right associativity).

(** Boolean comparisons on the reals. *)
Definition Rltb (a b : R) : bool := if Rlt_dec a b then true else false.
Definition Reqb (a b : R) : bool := if Req_dec_T a b then true else false.

(** ** The table *)

(** One row of the data frame built from [data]. *)
Record row : Type := mkRow {
  Industry : string;
  AI_Adoption : R;
  Efficiency_Improvement : R;
  Revenue_Growth : R;
  Market_Size : R;
  Growth_Potential : R
}.

(** The columns of the [data] dictionary (lines 8-15). *)
Module data.
Definition Industry : list string :=
  ["Healthcare"; "Finance"; "Retail"; "Manufacturing"; "Transportation";
   "Education"; "Entertainment"]%string.
Definition AI_Adoption : list R := [75; 80; 70; 65; 60; 55; 50].
Definition Efficiency_Improvement : list R := [30; 35; 25; 20; 15; 10; 20].
Definition Revenue_Growth : list R := [20; 25; 15; 10; 5; 5; 10].
Definition Market_Size : list R := [200; 180; 150; 170; 140; 120; 130].
Definition Growth_Potential : list R := [90; 85; 80; 75; 70; 65; 60].
End data.

(** [pd.DataFrame]: the rows read across equally long columns. *)
Fixpoint DataFrame (ind : list string) (ai eff rev market growth : list R)
  : list row :=
  match ind, ai, eff, rev, market, growth with
  | i :: ind', a :: ai', e :: eff', r :: rev', m :: market', g :: growth' =>
      mkRow i a e r m g :: DataFrame ind' ai' eff' rev' market' growth'
  | _, _, _, _, _, _ => []
  end.

Definition df : list row :=
  DataFrame data.Industry data.AI_Adoption data.Efficiency_Improvement
            data.Revenue_Growth data.Market_Size data.Growth_Potential.

(** ** The score (lines 20-27) *)

(** [np.log] and [np.exp].  On a positive argument [np.log] is the natural
    logarithm.  On a non-positive one NumPy returns minus infinity or NaN
    with a warning and raises nothing; here the value is then the one [ln]
    takes there, which stands for no float, and only the fact that a value
    is returned is meant. *)
Definition np_log (x : R) : R := ln x.
Definition np_exp (x : R) : R := exp x.

Definition calculate_aidgi (r : row)
  (ai_weight eff_weight rev_weight market_weight growth_weight : R) : R :=
  ai_weight * AI_Adoption r +
  eff_weight * Efficiency_Improvement r +
  rev_weight * Revenue_Growth r +
  market_weight * np_log (Market_Size r) +
  growth_weight * np_exp (Growth_Potential r / 100).

(** ** The weights (lines 95-107) *)

Record weights : Type := mkWeights {
  ai_weight : R;
  eff_weight : R;
  rev_weight : R;
  market_weight : R;
  growth_weight : R
}.

(** The slider defaults. *)
Definition default_weights : weights := mkWeights 0.35 0.25 0.20 0.10 0.10.

Definition total_weight (w : weights) : R :=
  ai_weight w + eff_weight w + rev_weight w + market_weight w + growth_weight w.

(** The five in-place divisions [x /= total_weight], in program order. *)
Definition normalize (w : weights) : result weights :=
  let t := total_weight w in
  ai <- truediv (ai_weight w) t ;;
  eff <- truediv (eff_weight w) t ;;
  rev <- truediv (rev_weight w) t ;;
  market <- truediv (market_weight w) t ;;
  growth <- truediv (growth_weight w) t ;;
  Ok (mkWeights ai eff rev market growth).

(** ** The scored table (line 110) *)

(** A row of [df] once the [AIDGI] column is set. *)
Record scored_row : Type := mkScored {
  base : row;
  AIDGI : R
}.

(** [df.apply(calculate_aidgi, axis=1, args=...)]: one value per row. *)
Definition df_apply (rows : list row) (w : weights) : list R :=
  map (fun r => calculate_aidgi r (ai_weight w) (eff_weight w) (rev_weight w)
                                (market_weight w) (growth_weight w)) rows.

(** [df['AIDGI'] = ...]: the new column set next to the existing ones. *)
Definition set_AIDGI (rows : list row) (col : list R) : list scored_row :=
  map (fun p => mkScored (fst p) (snd p)) (combine rows col).

Definition score (rows : list row) (w : weights) : list scored_row :=
  set_AIDGI rows (df_apply rows w).

(** ** Sorting (line 111)

    [df.sort_values(by='AIDGI', ascending=False, inplace=True)] leaves
    [kind] at its default, ['quicksort'].  The call rearranges the rows into
    descending order of the key; pandas documents only [kind='mergesort'] and
    [kind='stable'] as stable, so the order of rows with equal keys is left
    to the routine NumPy selects for the build and the processor (its
    portable quicksort, or a vectorised sorting network). *)

Definition sorting : Type := list scored_row -> list scored_row.

Definition descending (t : list scored_row) : Prop :=
  Sorted (fun a b => AIDGI a >= AIDGI b) t.

Record sorts_descending (sort_values : sorting) : Prop := {
  sort_values_perm : forall t, Permutation (sort_values t) t;
  sort_values_descending : forall t, descending (sort_values t)
}.

(** The routine of NumPy's portable code.  pandas' [nargsort] handles a
    descending order by reversing the key array, calling the ascending
    [argsort], and reversing the resulting permutation.  NumPy's quicksort
    hands short arrays, the seven rows of this table among them, to an
    insertion sort: every element in turn is moved left past the elements of
    the sorted prefix that are strictly greater than it. *)

Section Sorting.

Context {A : Type}.
Variable lt : A -> A -> bool.

(** The inner loop of the insertion sort.  The sorted prefix is held last
    element first, so the scan from the right end of the prefix reads its
    argument from the head. *)
Fixpoint insert_from_right (x : A) (prefix_rev : list A) : list A :=
  match prefix_rev with
  | [] => [x]
  | y :: rest =>
      if lt x y then y :: insert_from_right x rest else x :: prefix_rev
  end.

Definition insertion_sort (l : list A) : list A :=
  rev (fold_left (fun prefix_rev x => insert_from_right x prefix_rev) l []).

Definition sort_descending (l : list A) : list A :=
  rev (insertion_sort (rev l)).

(** The order of two neighbours in a descending result: the left one is
    not below the right one. *)
Definition not_below (a b : A) : Prop := lt a b = false.

End Sorting.

Definition sort_values_small : sorting :=
  sort_descending (fun a b => Rltb (AIDGI a) (AIDGI b)).

(** ** The ranked table (lines 102-111) *)

(** Lines 102-111 on an arbitrary table. *)
Definition rank (sort_values : sorting) (rows : list row) (raw : weights)
  : result (list scored_row) :=
  w <- normalize raw ;;
  Ok (sort_values (score rows w)).

(** One run of the script with the given slider values. *)
Definition run (sort_values : sorting) (raw : weights)
  : result (list scored_row) :=
  rank sort_values df raw.

(** ** The projections (lines 146 and 163) *)

Inductive column : Type :=
| col_AI_Adoption
| col_Efficiency_Improvement
| col_Revenue_Growth
| col_Market_Size
| col_Growth_Potential.

Definition column_name (c : column) : string :=
  match c with
  | col_AI_Adoption => "AI_Adoption"
  | col_Efficiency_Improvement => "Efficiency_Improvement"
  | col_Revenue_Growth => "Revenue_Growth"
  | col_Market_Size => "Market_Size"
  | col_Growth_Potential => "Growth_Potential"
  end%string.

Definition get_column (c : column) (r : row) : R :=
  match c with
  | col_AI_Adoption => AI_Adoption r
  | col_Efficiency_Improvement => Efficiency_Improvement r
  | col_Revenue_Growth => Revenue_Growth r
  | col_Market_Size => Market_Size r
  | col_Growth_Potential => Growth_Potential r
  end.

(** The [value_vars] of both [melt] calls. *)
Definition value_vars : list column :=
  [col_AI_Adoption; col_Efficiency_Improvement; col_Revenue_Growth;
   col_Market_Size; col_Growth_Potential].

(** A row of the long format: [Industry], [variable], [value]. *)
Definition melted : Type := (string * string * R)%type.

(** [t.melt(id_vars=['Industry'], value_vars=vars)]: the columns one after
    the other, each running through the rows in table order. *)
Definition melt (vars : list column) (t : list scored_row) : list melted :=
  flat_map (fun c =>
    map (fun s => (Industry (base s), column_name c, get_column c (base s))) t)
    vars.

(** [df[df['Industry'] == industry]]. *)
Definition filtered_df (t : list scored_row) (industry : string)
  : list scored_row :=
  filter (fun s => String.eqb (Industry (base s)) industry) t.

(** The options of the select box, [df['Industry']] of the sorted table. *)
Definition selectbox_options (t : list scored_row) : list string :=
  map (fun s => Industry (base s)) t.

(** [values] of the pie chart (line 135): the weights in slider order. *)
Definition values (w : weights) : list R :=
  [ai_weight w; eff_weight w; rev_weight w; market_weight w; growth_weight w].

(** ** Vocabulary of the specification *)

Definition non_negative (w : weights) : Prop :=
  Forall (fun x => 0 <= x) (values w).

(** All five raw weights multiplied by the same constant. *)
Definition scale_weights (c : R) (w : weights) : weights :=
  mkWeights (c * ai_weight w) (c * eff_weight w) (c * rev_weight w)
            (c * market_weight w) (c * growth_weight w).

(** The rows of a table holding a given score. *)
Definition tied (v : R) (s : scored_row) : bool := Reqb (AIDGI s) v.

(** The triple the specification asks of the long format for a metric and a
    record: the record's name, the name of the metric, and the record's own
    value of that metric. *)
Definition raw_triple (c : column) (r : row) : melted :=
  match c with
  | col_AI_Adoption =>
      (Industry r, "AI_Adoption"%string, AI_Adoption r)
  | col_Efficiency_Improvement =>
      (Industry r, "Efficiency_Improvement"%string, Efficiency_Improvement r)
  | col_Revenue_Growth =>
      (Industry r, "Revenue_Growth"%string, Revenue_Growth r)
  | col_Market_Size =>
      (Industry r, "Market_Size"%string, Market_Size r)
  | col_Growth_Potential =>
      (Industry r, "Growth_Potential"%string, Growth_Potential r)
  end.

(** ** The widgets (lines 95-99 and 160) *)

(** [st.sidebar.slider(label, 0.0, 1.0, default, 0.01)] returns a value
    between its two bounds. *)
Definition slider (min_value max_value x : R) : Prop :=
  min_value <= x <= max_value.

(** The five sliders of the sidebar. *)
Definition sidebar (w : weights) : Prop := Forall (slider 0 1) (values w).

(** [st.selectbox(label, options)]: the option at the chosen position, the
    first one until the user picks another; nothing when there is no
    option. *)
Definition selectbox (options : list string) (choice : nat) : option string :=
  nth_error options choice.

(** The five quantities [calculate_aidgi] weighs, in the order of its sum. *)
Definition terms (r : row) : list R :=
  [AI_Adoption r; Efficiency_Improvement r; Revenue_Growth r;
   np_log (Market_Size r); np_exp (Growth_Potential r / 100)].

(** A record above another in each of the five metrics. *)
Definition exceeds (r1 r2 : row) : Prop :=
  AI_Adoption r2 < AI_Adoption r1 /\
  Efficiency_Improvement r2 < Efficiency_Improvement r1 /\
  Revenue_Growth r2 < Revenue_Growth r1 /\
  0 < Market_Size r2 < Market_Size r1 /\
  Growth_Potential r2 < Growth_Potential r1.

(** All the weight on the slider of one metric. *)
Definition single_weight (c : column) (a : R) : weights :=
  match c with
  | col_AI_Adoption => mkWeights a 0 0 0 0
  | col_Efficiency_Improvement => mkWeights 0 a 0 0 0
  | col_Revenue_Growth => mkWeights 0 0 a 0 0
  | col_Market_Size => mkWeights 0 0 0 a 0
  | col_Growth_Potential => mkWeights 0 0 0 0 a
  end.

(** ** The same lines on binary64

    Lines 20-27 and 102-111 once more, on the doubles the script computes
    with, for the statements that rounding decides.  The integers of [data]
    are held as doubles, which they are converted to, exactly, when a float
    multiplies them.  [np.log] and [np.exp] are arguments: their results are
    NumPy's, not fixed here.  The sort is the insertion sort of
    [sort_descending], as pandas calls it. *)

Module Double.
Import PrimFloat.
#[local] Set Warnings "-inexact-float".

Record row : Type := mkRow {
  Industry : string;
  AI_Adoption : float;
  Efficiency_Improvement : float;
  Revenue_Growth : float;
  Market_Size : float;
  Growth_Potential : float
}.

Definition df : list row :=
  [mkRow "Healthcare" 75 30 20 200 90;
   mkRow "Finance" 80 35 25 180 85;
   mkRow "Retail" 70 25 15 150 80;
   mkRow "Manufacturing" 65 20 10 170 75;
   mkRow "Transportation" 60 15 5 140 70;
   mkRow "Education" 55 10 5 120 65;
   mkRow "Entertainment" 50 20 10 130 60]%float.

Record weights : Type := mkWeights {
  ai_weight : float;
  eff_weight : float;
  rev_weight : float;
  market_weight : float;
  growth_weight : float
}.

Definition total_weight (w : weights) : float :=
  (ai_weight w + eff_weight w + rev_weight w + market_weight w
   + growth_weight w)%float.

Definition truediv (a b : float) : result float :=
  if (b =? 0)%float then Raise "ZeroDivisionError"%string else Ok (a / b)%float.

Definition normalize (w : weights) : result weights :=
  let t := total_weight w in
  ai <- truediv (ai_weight w) t ;;
  eff <- truediv (eff_weight w) t ;;
  rev <- truediv (rev_weight w) t ;;
  market <- truediv (market_weight w) t ;;
  growth <- truediv (growth_weight w) t ;;
  Ok (mkWeights ai eff rev market growth).

(** All five raw weights multiplied by the same constant. *)
Definition scale_weights (c : float) (w : weights) : weights :=
  mkWeights (c * ai_weight w) (c * eff_weight w) (c * rev_weight w)
            (c * market_weight w) (c * growth_weight w)%float.

Record scored_row : Type := mkScored {
  base : row;
  AIDGI : float
}.

Section Score.

Variables np_log np_exp : float -> float.

Definition calculate_aidgi (r : row)
  (ai_weight eff_weight rev_weight market_weight growth_weight : float)
  : float :=
  (ai_weight * AI_Adoption r +
   eff_weight * Efficiency_Improvement r +
   rev_weight * Revenue_Growth r +
   market_weight * np_log (Market_Size r) +
   growth_weight * np_exp (Growth_Potential r / 100))%float.

Definition score (rows : list row) (w : weights) : list scored_row :=
  map (fun r => mkScored r (calculate_aidgi r (ai_weight w) (eff_weight w)
                              (rev_weight w) (market_weight w)
                              (growth_weight w))) rows.

(** [nargsort] sets the rows whose key is NaN aside, sorts the others, and
    puts the rows set aside last, in the order they had. *)
Definition isna (s : scored_row) : bool := is_nan (AIDGI s).

Definition sort_values (t : list scored_row) : list scored_row :=
  sort_descending (fun a b => (AIDGI a <? AIDGI b)%float)
                  (filter (fun s => negb (isna s)) t)
  ++ filter isna t.

Definition run (raw : weights) : result (list scored_row) :=
  w <- normalize raw ;;
  Ok (sort_values (score df w)).

End Score.

Definition names (t : list scored_row) : list string :=
  map (fun s => Industry (base s)) t.

(** A double that is a number: neither an infinity nor NaN. *)
Definition finite (x : float) : bool :=
  match FloatOps.Prim2SF x with
  | SpecFloat.S754_zero _ | SpecFloat.S754_finite _ _ _ => true
  | _ => false
  end.

(** [np.log] and [np.exp] return numbers on the market sizes and growth
    potentials of the data. *)
Definition finite_on_data (np_log np_exp : float -> float) : Prop :=
  Forall (fun r => finite (np_log (Market_Size r)) = true /\
                   finite (np_exp (Growth_Potential r / 100)%float) = true) df.

(** A double that is a number other than zero. *)
Definition nonzero_number (x : float) : bool :=
  match FloatOps.Prim2SF x with
  | SpecFloat.S754_finite _ _ _ => true
  | _ => false
  end.

End Double.

(** * Properties *)

(** ** Results *)

Lemma truediv_nonzero (a b : R) : b <> 0 -> truediv a b = Ok (a / b).
Proof.
  intros Hb. unfold truediv. destruct (Req_dec_T b 0) as [E | _].
  - contradiction.
  - reflexivity.
Qed.

Lemma truediv_zero (a b : R) : b = 0 -> truediv a b = Raise "ZeroDivisionError"%string.
Proof.
  intros Hb. unfold truediv. destruct (Req_dec_T b 0) as [_ | N].
  - reflexivity.
  - contradiction.
Qed.

Lemma Rltb_true (a b : R) : Rltb a b = true <-> a < b.
Proof.
  unfold Rltb. destruct (Rlt_dec a b); split; intros; try easy.
Qed.

Lemma Rltb_false (a b : R) : Rltb a b = false <-> b <= a.
Proof.
  unfold Rltb. destruct (Rlt_dec a b); split; intros; try easy; lra.
Qed.

Lemma Reqb_true (a b : R) : Reqb a b = true <-> a = b.
Proof.
  unfold Reqb. destruct (Req_dec_T a b); split; intros; easy.
Qed.

(** ** The insertion sort *)

Section SortingFacts.

Context {A : Type}.
Variable lt : A -> A -> bool.

(** The two reversals and the left-to-right loop amount to inserting the
    rows from the last to the first. *)
Lemma sort_descending_fold (l : list A) :
  sort_descending lt l = fold_right (insert_from_right lt) [] l.
Proof.
  unfold sort_descending, insertion_sort.
  rewrite rev_involutive.
  rewrite <- (fold_left_rev_right (insert_from_right lt)).
  now rewrite rev_involutive.
Qed.

Lemma sort_descending_cons (x : A) (l : list A) :
  sort_descending lt (x :: l) = insert_from_right lt x (sort_descending lt l).
Proof. now rewrite !sort_descending_fold. Qed.

Lemma insert_from_right_perm (x : A) (l : list A) :
  Permutation (insert_from_right lt x l) (x :: l).
Proof.
  induction l as [| y l IH]; simpl.
  - apply Permutation_refl.
  - destruct (lt x y).
    + transitivity (y :: x :: l).
      * now apply perm_skip.
      * apply perm_swap.
    + apply Permutation_refl.
Qed.

Lemma sort_descending_perm (l : list A) :
  Permutation (sort_descending lt l) l.
Proof.
  induction l as [| x l IH].
  - rewrite sort_descending_fold. apply Permutation_refl.
  - rewrite sort_descending_cons.
    transitivity (x :: sort_descending lt l).
    + apply insert_from_right_perm.
    + now apply perm_skip.
Qed.

Hypothesis lt_asym : forall a b, lt a b = true -> lt b a = false.

Lemma insert_from_right_HdRel (a x : A) (l : list A) :
  not_below lt a x -> HdRel (not_below lt) a l ->
  HdRel (not_below lt) a (insert_from_right lt x l).
Proof.
  intros Hax Hal. destruct l as [| y l]; simpl.
  - now constructor.
  - destruct (lt x y); constructor.
    + now inversion Hal.
    + exact Hax.
Qed.

Lemma insert_from_right_sorted (x : A) (l : list A) :
  Sorted (not_below lt) l -> Sorted (not_below lt) (insert_from_right lt x l).
Proof.
  induction l as [| y l IH]; intros Hs; simpl.
  - repeat constructor.
  - destruct (lt x y) eqn:Hxy.
    + inversion Hs as [| ? ? Hl Hhd]; subst.
      constructor.
      * now apply IH.
      * apply insert_from_right_HdRel; [now apply lt_asym | exact Hhd].
    + constructor; [exact Hs | now constructor].
Qed.

Lemma sort_descending_sorted (l : list A) :
  Sorted (not_below lt) (sort_descending lt l).
Proof.
  induction l as [| x l IH].
  - rewrite sort_descending_fold. constructor.
  - rewrite sort_descending_cons. now apply insert_from_right_sorted.
Qed.

(** Stability: a class of elements none of which is below another keeps
    its order. *)
Variable same : A -> bool.
Hypothesis same_not_below :
  forall a b, same a = true -> same b = true -> lt a b = false.

Lemma insert_from_right_filter (x : A) (l : list A) :
  filter same (insert_from_right lt x l) = filter same (x :: l).
Proof.
  induction l as [| y l IH]; [reflexivity |].
  simpl insert_from_right.
  destruct (lt x y) eqn:Hxy; [| reflexivity].
  simpl in IH |- *. rewrite IH.
  destruct (same x) eqn:Hx, (same y) eqn:Hy; try reflexivity.
  rewrite (same_not_below x y Hx Hy) in Hxy. discriminate.
Qed.

Lemma sort_descending_stable (l : list A) :
  filter same (sort_descending lt l) = filter same l.
Proof.
  induction l as [| x l IH].
  - now rewrite sort_descending_fold.
  - rewrite sort_descending_cons, insert_from_right_filter.
    simpl. now rewrite IH.
Qed.

End SortingFacts.

(** Neighbours in a [Sorted] list, by position. *)
Lemma Sorted_adjacent {A : Type} (rel : A -> A -> Prop) (l : list A) :
  Sorted rel l ->
  forall i a b, nth_error l i = Some a -> nth_error l (S i) = Some b -> rel a b.
Proof.
  induction 1 as [| x l Hs IH Hhd]; intros i a b Ha Hb.
  - destruct i; discriminate.
  - destruct i as [| i]; simpl in Ha, Hb.
    + injection Ha as <-. destruct l as [| y l]; [discriminate |].
      simpl in Hb. injection Hb as <-. now inversion Hhd.
    + now apply (IH i).
Qed.

(** ** Normalisation *)

Lemma normalize_nonzero (raw : weights) :
  total_weight raw <> 0 ->
  normalize raw =
  Ok (mkWeights (ai_weight raw / total_weight raw)
                (eff_weight raw / total_weight raw)
                (rev_weight raw / total_weight raw)
                (market_weight raw / total_weight raw)
                (growth_weight raw / total_weight raw)).
Proof.
  intros Ht. unfold normalize. cbv zeta.
  now rewrite !(truediv_nonzero _ _ Ht).
Qed.

Lemma normalize_zero (raw : weights) :
  total_weight raw = 0 -> normalize raw = Raise "ZeroDivisionError"%string.
Proof.
  intros Ht. unfold normalize. cbv zeta.
  now rewrite (truediv_zero _ _ Ht).
Qed.

Lemma total_weight_normalized (raw : weights) :
  total_weight raw <> 0 ->
  ai_weight raw / total_weight raw + eff_weight raw / total_weight raw +
  rev_weight raw / total_weight raw + market_weight raw / total_weight raw +
  growth_weight raw / total_weight raw = 1.
Proof.
  intros Ht. unfold total_weight in *. now field.
Qed.


(** C2.  For five non-negative raw weights with a strictly positive sum,
    normalisation succeeds; the returned weights sum to 1 within 1e-9, each
    is the corresponding raw weight divided by the sum of the raw weights
    (hence lies between 0 and 1), and the ratio of any two raw weights is
    the ratio of the two returned weights. *)
Theorem normalize_sum_and_proportions (raw : weights) :
  non_negative raw ->
  0 < total_weight raw ->
  exists w,
    normalize raw = Ok w /\
    Rabs (total_weight w - 1) <= 1e-9 /\
    values w = map (fun x => x / total_weight raw) (values raw) /\
    Forall (fun x => 0 <= x <= 1) (values w) /\
    forall i j,
      nth i (values w) 0 * nth j (values raw) 0 =
      nth j (values w) 0 * nth i (values raw) 0.
Proof.
  intros Hnn Hpos.
  assert (Ht : total_weight raw <> 0) by lra.
  eexists. split; [apply (normalize_nonzero raw Ht) |].
  split; [| split; [| split]].
  - unfold total_weight at 1. simpl.
    rewrite (total_weight_normalized raw Ht).
    replace (1 - 1) with 0 by ring. rewrite Rabs_R0. lra.
  - reflexivity.
  - unfold non_negative in Hnn. unfold values in *. simpl.
    repeat match goal with
           | H : Forall _ (_ :: _) |- _ => inversion H; clear H; subst
           end.
    assert (Hdiv : forall x, 0 <= x <= total_weight raw ->
                             0 <= x / total_weight raw <= 1).
    { intros x [Hx0 Hx1]. split.
      - apply Rmult_le_pos; [exact Hx0 |].
        left. now apply Rinv_0_lt_compat.
      - apply (Rmult_le_reg_r (total_weight raw)); [exact Hpos |].
        unfold Rdiv. rewrite Rmult_assoc, Rinv_l by exact Ht. lra. }
    unfold total_weight in Hdiv |- *.
    repeat (apply Forall_cons; [apply Hdiv; lra |]). apply Forall_nil.
  - intros i j. unfold values. simpl.
    do 6 (try destruct i as [| i]); do 6 (try destruct j as [| j]);
      simpl; try (destruct i); try (destruct j); now field.
Qed.

Lemma normalize_sum_and_proportions_witness :
  exists w,
    normalize default_weights = Ok w /\
    Rabs (total_weight w - 1) <= 1e-9 /\
    values w = map (fun x => x / total_weight default_weights)
                   (values default_weights) /\
    Forall (fun x => 0 <= x <= 1) (values w) /\
    forall i j,
      nth i (values w) 0 * nth j (values default_weights) 0 =
      nth j (values w) 0 * nth i (values default_weights) 0.
Proof.
  apply (normalize_sum_and_proportions default_weights).
  - unfold non_negative, default_weights, values. simpl.
    repeat constructor; lra.
  - unfold total_weight, default_weights. simpl. lra.
Defined.

(** C3, as stated, does not hold: with all five raw weights zero the first
    division raises Python's [ZeroDivisionError]; the script has no
    [DegenerateWeightsError]. *)
Lemma normalize_all_zero_not_degenerate_error :
  normalize (mkWeights 0 0 0 0 0) = Raise "ZeroDivisionError"%string /\
  normalize (mkWeights 0 0 0 0 0) <> Raise "DegenerateWeightsError"%string.
Proof.
  assert (E : normalize (mkWeights 0 0 0 0 0) = Raise "ZeroDivisionError"%string).
  { apply normalize_zero. unfold total_weight. simpl. lra. }
  split; [exact E |].
  rewrite E. discriminate.
Qed.

(** C3, amended.  If the five raw weights sum to zero (as when all five are
    zero), normalisation fails: the first division raises
    [ZeroDivisionError], no weight vector is returned and the run, whatever
    the sorting routine, produces no table. *)
Theorem normalize_zero_sum_raises (raw : weights) :
  total_weight raw = 0 ->
  normalize raw = Raise "ZeroDivisionError"%string /\
  forall sort_values, run sort_values raw = Raise "ZeroDivisionError"%string.
Proof.
  intros Ht. pose proof (normalize_zero raw Ht) as E.
  split; [exact E |].
  intros sort_values. unfold run, rank. now rewrite E.
Qed.

Lemma normalize_zero_sum_raises_witness :
  normalize (mkWeights 0 0 0 0 0) = Raise "ZeroDivisionError"%string /\
  forall sort_values,
    run sort_values (mkWeights 0 0 0 0 0) = Raise "ZeroDivisionError"%string.
Proof.
  apply (normalize_zero_sum_raises (mkWeights 0 0 0 0 0)).
  unfold total_weight. simpl. lra.
Defined.

Lemma normalize_unit_sum (w : weights) :
  total_weight w = 1 -> normalize w = Ok w.
Proof.
  intros H1.
  assert (Ht : total_weight w <> 0) by lra.
  rewrite (normalize_nonzero w Ht), H1.
  destruct w as [a e r m g]. simpl.
  f_equal. f_equal; field.
Qed.

Lemma total_weight_default : total_weight default_weights = 1.
Proof. unfold total_weight, default_weights. simpl. lra. Qed.

Lemma total_weight_default_nonzero : total_weight default_weights <> 0.
Proof. rewrite total_weight_default. lra. Qed.

(** ** Scoring *)

Lemma score_map (rows : list row) (w : weights) :
  score rows w =
  map (fun r => mkScored r (calculate_aidgi r (ai_weight w) (eff_weight w)
                              (rev_weight w) (market_weight w)
                              (growth_weight w))) rows.
Proof.
  unfold score, set_AIDGI, df_apply.
  induction rows as [| r rows IH]; simpl; [reflexivity |].
  now rewrite IH.
Qed.

Lemma score_base (rows : list row) (w : weights) :
  map base (score rows w) = rows.
Proof.
  rewrite score_map, map_map. simpl. apply map_id.
Qed.

Lemma filter_score (f : row -> bool) (rows : list row) (w : weights) :
  filter (fun s => f (base s)) (score rows w) = score (filter f rows) w.
Proof.
  rewrite !score_map.
  induction rows as [| r rows IH]; simpl; [reflexivity |].
  destruct (f r); simpl; now rewrite IH.
Qed.

(** C1.  For every list of records and every weight vector, the score
    operation returns one scored row per record, in order, carrying that
    record and the index score
    [w_adoption * ai_adoption + w_efficiency * efficiency_improvement +
     w_revenue * revenue_growth + w_market * ln market_size +
     w_growth * exp (growth_potential / 100)]. *)
Theorem score_index_formula (rows : list row) (w : weights) :
  Forall2 (fun r s =>
             base s = r /\
             AIDGI s =
               ai_weight w * AI_Adoption r +
               eff_weight w * Efficiency_Improvement r +
               rev_weight w * Revenue_Growth r +
               market_weight w * ln (Market_Size r) +
               growth_weight w * exp (Growth_Potential r / 100))
          rows (score rows w).
Proof.
  rewrite score_map.
  induction rows as [| r rows IH]; simpl; constructor.
  - split; reflexivity.
  - exact IH.
Qed.

(** ** The two sorting routines *)

Lemma AIDGI_lt_asym (a b : scored_row) :
  Rltb (AIDGI a) (AIDGI b) = true -> Rltb (AIDGI b) (AIDGI a) = false.
Proof.
  rewrite Rltb_true, Rltb_false. lra.
Qed.

Lemma AIDGI_tied (v : R) (a b : scored_row) :
  tied v a = true -> tied v b = true -> Rltb (AIDGI a) (AIDGI b) = false.
Proof.
  unfold tied. rewrite !Reqb_true, Rltb_false. lra.
Qed.

Lemma not_below_descending (t : list scored_row) :
  Sorted (not_below (fun a b => Rltb (AIDGI a) (AIDGI b))) t -> descending t.
Proof.
  unfold descending.
  induction 1 as [| x l Hs IH Hhd]; constructor.
  - exact IH.
  - destruct Hhd as [| y l Hxy]; constructor.
    unfold not_below in Hxy. apply Rltb_false in Hxy. lra.
Qed.

Lemma sort_values_small_ok : sorts_descending sort_values_small.
Proof.
  split; intros t; unfold sort_values_small.
  - apply sort_descending_perm.
  - apply not_below_descending, sort_descending_sorted.
    intros a b. apply AIDGI_lt_asym.
Qed.

Lemma sort_values_small_stable (v : R) (t : list scored_row) :
  filter (tied v) (sort_values_small t) = filter (tied v) t.
Proof.
  unfold sort_values_small. apply sort_descending_stable.
  intros a b. apply AIDGI_tied.
Qed.

Lemma descending_adjacent (t : list scored_row) :
  descending t ->
  forall i a b,
    nth_error t i = Some a -> nth_error t (S i) = Some b -> AIDGI a >= AIDGI b.
Proof.
  intros Hd i a b Ha Hb.
  exact (Sorted_adjacent _ _ Hd i a b Ha Hb).
Qed.

(** ** The ranked table and its projections, for any sorting routine *)

Lemma df_market_sizes_positive : Forall (fun r => 0 < Market_Size r) df.
Proof.
  unfold df. simpl. repeat (apply Forall_cons; [simpl; lra |]). apply Forall_nil.
Qed.

Lemma filter_Permutation {A : Type} (f : A -> bool) (l l' : list A) :
  Permutation l l' -> Permutation (filter f l) (filter f l').
Proof.
  induction 1 as [| x l l' _ IH | x y l | l l' l'' _ IH1 _ IH2]; simpl.
  - constructor.
  - destruct (f x); [now constructor | exact IH].
  - destruct (f x), (f y); try apply Permutation_refl. apply perm_swap.
  - now transitivity (filter f l').
Qed.

Lemma filter_df_listed (industry : string) :
  In industry data.Industry ->
  exists r, filter (fun r => String.eqb (Industry r) industry) df = [r] /\
            Industry r = industry.
Proof.
  unfold data.Industry. simpl.
  intros [<- | [<- | [<- | [<- | [<- | [<- | [<- | []]]]]]]];
    eexists; split; reflexivity.
Qed.

Lemma filter_df_unlisted (industry : string) :
  ~ In industry data.Industry ->
  filter (fun r => String.eqb (Industry r) industry) df = [].
Proof.
  intros Hn.
  assert (Hall : forall r, In r df -> String.eqb (Industry r) industry = false).
  { intros r Hr. apply String.eqb_neq. intros E. apply Hn. subst industry.
    unfold df in Hr. simpl in Hr. unfold data.Industry. simpl.
    repeat (destruct Hr as [<- | Hr]; [simpl; tauto |]). destruct Hr. }
  induction df as [| r rows IH]; [reflexivity |].
  simpl. rewrite (Hall r (or_introl eq_refl)).
  apply IH. intros r' Hr'. apply Hall. now right.
Qed.

Lemma melt_raw_triple (vars : list column) (t : list scored_row) :
  melt vars t =
  flat_map (fun c => map (fun s => raw_triple c (base s)) t) vars.
Proof.
  assert (E : forall c s,
             (Industry (base s), column_name c, get_column c (base s)) =
             raw_triple c (base s)).
  { intros c s. destruct c; reflexivity. }
  unfold melt.
  induction vars as [| c vars IH]; simpl; [reflexivity |].
  rewrite IH. now rewrite (map_ext _ _ (E c)).
Qed.

Lemma raw_triples_Permutation (vars : list column) (rows rows' : list row) :
  Permutation rows rows' ->
  Permutation (flat_map (fun c => map (raw_triple c) rows) vars)
              (flat_map (fun c => map (raw_triple c) rows') vars).
Proof.
  intros Hp.
  induction vars as [| c vars IH]; simpl.
  - constructor.
  - apply Permutation_app; [now apply Permutation_map | exact IH].
Qed.

Section Ranking.

Variable sort_values : sorting.
Hypothesis sort_values_ok : sorts_descending sort_values.

Lemma rank_nonzero (rows : list row) (raw : weights) :
  total_weight raw <> 0 ->
  exists w,
    normalize raw = Ok w /\
    rank sort_values rows raw = Ok (sort_values (score rows w)).
Proof.
  intros Ht. unfold rank. rewrite (normalize_nonzero raw Ht). simpl.
  eexists. split; reflexivity.
Qed.

Lemma sorted_base (rows : list row) (w : weights) :
  Permutation (map base (sort_values (score rows w))) rows.
Proof.
  rewrite <- (score_base rows w) at 2.
  apply Permutation_map, (sort_values_perm _ sort_values_ok).
Qed.

Lemma rank_outcome (rows : list row) (raw : weights) :
  (total_weight raw = 0 /\
   rank sort_values rows raw = Raise "ZeroDivisionError"%string) \/
  (total_weight raw <> 0 /\
   exists t, rank sort_values rows raw = Ok t /\
             Permutation (map base t) rows).
Proof.
  destruct (Req_dec_T (total_weight raw) 0) as [Ht | Ht].
  - left. split; [exact Ht |].
    unfold rank. now rewrite (normalize_zero raw Ht).
  - right. split; [exact Ht |].
    destruct (rank_nonzero rows raw Ht) as [w [_ Hr]].
    eexists. split; [exact Hr | apply sorted_base].
Qed.

Lemma filtered_df_sorted (w : weights) (industry : string) :
  Permutation
    (filtered_df (sort_values (score df w)) industry)
    (score (filter (fun r => String.eqb (Industry r) industry) df) w).
Proof.
  unfold filtered_df.
  rewrite <- (filter_score (fun r => String.eqb (Industry r) industry)).
  apply filter_Permutation, (sort_values_perm _ sort_values_ok).
Qed.

(** In exact arithmetic the quotients [c * w / (c * total)] and [w / total]
    are one number, so that the run with all five raw weights multiplied by
    a positive [c] gives the table of the run with the raw weights. *)
Lemma exact_scale_invariance (raw : weights) (c : R) :
  0 < total_weight raw ->
  0 < c ->
  exists t,
    run sort_values raw = Ok t /\
    run sort_values (scale_weights c raw) = Ok t.
Proof.
  intros Hpos Hc.
  assert (Ht : total_weight raw <> 0) by lra.
  assert (Hct : total_weight (scale_weights c raw) <> 0).
  { unfold total_weight, scale_weights in *. simpl. nra. }
  assert (E : normalize (scale_weights c raw) = normalize raw).
  { rewrite (normalize_nonzero _ Ht), (normalize_nonzero _ Hct).
    unfold total_weight, scale_weights in *. simpl.
    replace (c * ai_weight raw + c * eff_weight raw + c * rev_weight raw +
             c * market_weight raw + c * growth_weight raw)
      with (c * (ai_weight raw + eff_weight raw + rev_weight raw +
                 market_weight raw + growth_weight raw)) by ring.
    f_equal. f_equal; field; split; lra. }
  destruct (rank_nonzero df raw Ht) as [w [Hn Hr]].
  exists (sort_values (score df w)). split; [exact Hr |].
  unfold run, rank. rewrite E, Hn. reflexivity.
Qed.

(** C6, amended.  The score operation checks no metric value.  For every
    list of records, whatever their market sizes, and every weight vector it
    returns one scored row per record, in order.  A run either raises
    [ZeroDivisionError], exactly when the raw weights sum to zero, and then
    returns no table, or returns a table holding every record once.  In the
    static table every market size is positive. *)
Theorem score_total_all_or_nothing (rows : list row) (w raw : weights) :
  map base (score rows w) = rows /\
  ((total_weight raw = 0 /\
    rank sort_values rows raw = Raise "ZeroDivisionError"%string) \/
   (total_weight raw <> 0 /\
    exists t, rank sort_values rows raw = Ok t /\
              Permutation (map base t) rows)) /\
  Forall (fun r => 0 < Market_Size r) df.
Proof.
  split; [apply score_base |].
  split; [apply rank_outcome | apply df_market_sizes_positive].
Qed.

(** C7, amended.  On the table of any run, the detail filter applied to one
    of the seven industry names (the select box offers exactly these)
    returns exactly one scored row, the row of the table whose name field is
    that name; applied to any other name it returns the empty table, and
    raises nothing. *)
Theorem detail_single_or_empty (raw : weights) (industry : string) :
  total_weight raw <> 0 ->
  exists t,
    run sort_values raw = Ok t /\
    Permutation (selectbox_options t) data.Industry /\
    (In industry data.Industry ->
     exists s, filtered_df t industry = [s] /\
               In s t /\ Industry (base s) = industry) /\
    (~ In industry data.Industry -> filtered_df t industry = []).
Proof.
  intros Ht. destruct (rank_nonzero df raw Ht) as [w [_ Hr]].
  exists (sort_values (score df w)).
  split; [exact Hr |]. split; [| split].
  - unfold selectbox_options.
    rewrite <- (map_map base Industry).
    rewrite (Permutation_map Industry (sorted_base df w)).
    apply Permutation_refl.
  - intros Hin. destruct (filter_df_listed industry Hin) as [r [Hf Hname]].
    pose proof (filtered_df_sorted w industry) as Hp.
    rewrite Hf in Hp.
    change (score [r] w)
      with [mkScored r (calculate_aidgi r (ai_weight w) (eff_weight w)
                          (rev_weight w) (market_weight w) (growth_weight w))]
      in Hp.
    symmetry in Hp. apply Permutation_length_1_inv in Hp.
    eexists. split; [exact Hp |]. split.
    + apply (filter_In (fun s => String.eqb (Industry (base s)) industry)).
      fold (filtered_df (sort_values (score df w)) industry).
      rewrite Hp. now left.
    + exact Hname.
  - intros Hn. apply Permutation_nil. symmetry.
    rewrite (filtered_df_sorted w industry), (filter_df_unlisted industry Hn).
    reflexivity.
Qed.

(** C8.  For every list of requested metrics and every run, the long format
    holds, metric after metric and within a metric in table order, for each
    row the triple of its name, the name of the metric and the value its
    record has for that metric; it is a rearrangement of these triples taken
    over the records of the data.  No weight enters it, so the long formats
    of two runs with different weights hold the same triples. *)
Theorem melt_raw_triples_any_weights (vars : list column)
  (raw1 raw2 : weights) :
  total_weight raw1 <> 0 ->
  total_weight raw2 <> 0 ->
  exists t1 t2,
    run sort_values raw1 = Ok t1 /\
    run sort_values raw2 = Ok t2 /\
    melt vars t1 =
      flat_map (fun c => map (fun s => raw_triple c (base s)) t1) vars /\
    Permutation (melt vars t1)
                (flat_map (fun c => map (raw_triple c) df) vars) /\
    Permutation (melt vars t1) (melt vars t2).
Proof.
  intros H1 H2.
  destruct (rank_nonzero df raw1 H1) as [w1 [_ Hr1]].
  destruct (rank_nonzero df raw2 H2) as [w2 [_ Hr2]].
  assert (Hdf : forall w,
             Permutation (melt vars (sort_values (score df w)))
                         (flat_map (fun c => map (raw_triple c) df) vars)).
  { intros w. rewrite melt_raw_triple.
    transitivity
      (flat_map (fun c => map (raw_triple c)
                              (map base (sort_values (score df w)))) vars).
    - clear. induction vars as [| c vars IH]; simpl; [constructor |].
      rewrite map_map. apply Permutation_app; [apply Permutation_refl | exact IH].
    - apply raw_triples_Permutation, sorted_base. }
  exists (sort_values (score df w1)), (sort_values (score df w2)).
  split; [exact Hr1 |]. split; [exact Hr2 |].
  split; [apply melt_raw_triple |]. split; [apply Hdf |].
  transitivity (flat_map (fun c => map (raw_triple c) df) vars);
    [apply Hdf | symmetry; apply Hdf].
Qed.

(** C10.  Whenever the weights can be normalised, the table of the run holds
    the seven records of the static data, each exactly once and with its name
    and five metric values as in the data; the only thing computed is the
    index score of each row, which is the score of that row's record under
    the normalised weights. *)
Theorem ranked_table_keeps_records (raw : weights) :
  total_weight raw <> 0 ->
  exists w t,
    normalize raw = Ok w /\
    run sort_values raw = Ok t /\
    Permutation (map base t) df /\
    List.length t = 7%nat /\
    NoDup (selectbox_options t) /\
    Forall (fun s => AIDGI s =
                       calculate_aidgi (base s) (ai_weight w) (eff_weight w)
                         (rev_weight w) (market_weight w) (growth_weight w)) t.
Proof.
  intros Ht. destruct (rank_nonzero df raw Ht) as [w [Hn Hr]].
  exists w, (sort_values (score df w)).
  pose proof (sorted_base df w) as Hp.
  split; [exact Hn |]. split; [exact Hr |]. split; [exact Hp |].
  split; [| split].
  - rewrite <- (length_map base). now rewrite (Permutation_length Hp).
  - unfold selectbox_options. rewrite <- (map_map base Industry).
    apply (Permutation_NoDup (l := map Industry df)).
    + symmetry. now apply Permutation_map.
    + unfold df. simpl.
      repeat (constructor; [simpl; intuition discriminate |]). constructor.
  - rewrite (sort_values_perm _ sort_values_ok (score df w)).
    rewrite score_map.
    apply Forall_forall. intros s Hs.
    apply in_map_iff in Hs. destruct Hs as [r [<- _]]. reflexivity.
Qed.

End Ranking.

(** ** Instances at the slider defaults and the insertion sort *)



Lemma score_total_all_or_nothing_witness :
  map base (score df default_weights) = df /\
  ((total_weight default_weights = 0 /\
    rank sort_values_small df default_weights
      = Raise "ZeroDivisionError"%string) \/
   (total_weight default_weights <> 0 /\
    exists t, rank sort_values_small df default_weights = Ok t /\
              Permutation (map base t) df)) /\
  Forall (fun r => 0 < Market_Size r) df.
Proof.
  exact (score_total_all_or_nothing sort_values_small sort_values_small_ok
                                    df default_weights default_weights).
Defined.

Lemma detail_single_or_empty_witness :
  exists t,
    run sort_values_small default_weights = Ok t /\
    Permutation (selectbox_options t) data.Industry /\
    (In "Retail"%string data.Industry ->
     exists s, filtered_df t "Retail" = [s] /\
               In s t /\ Industry (base s) = "Retail"%string) /\
    (~ In "Retail"%string data.Industry -> filtered_df t "Retail" = []).
Proof.
  apply (detail_single_or_empty sort_values_small sort_values_small_ok
                                default_weights "Retail").
  unfold total_weight, default_weights. simpl. lra.
Defined.

Lemma melt_raw_triples_any_weights_witness :
  exists t1 t2,
    run sort_values_small default_weights = Ok t1 /\
    run sort_values_small (mkWeights 0 1 0 0 0) = Ok t2 /\
    melt value_vars t1 =
      flat_map (fun c => map (fun s => raw_triple c (base s)) t1)
               value_vars /\
    Permutation (melt value_vars t1)
                (flat_map (fun c => map (raw_triple c) df) value_vars) /\
    Permutation (melt value_vars t1) (melt value_vars t2).
Proof.
  apply (melt_raw_triples_any_weights sort_values_small sort_values_small_ok
           value_vars default_weights (mkWeights 0 1 0 0 0)).
  - unfold total_weight, default_weights. simpl. lra.
  - unfold total_weight. simpl. lra.
Defined.

Lemma ranked_table_keeps_records_witness :
  exists w t,
    normalize default_weights = Ok w /\
    run sort_values_small default_weights = Ok t /\
    Permutation (map base t) df /\
    List.length t = 7%nat /\
    NoDup (selectbox_options t) /\
    Forall (fun s => AIDGI s =
                       calculate_aidgi (base s) (ai_weight w) (eff_weight w)
                         (rev_weight w) (market_weight w) (growth_weight w)) t.
Proof.
  apply (ranked_table_keeps_records sort_values_small sort_values_small_ok
                                    default_weights).
  unfold total_weight, default_weights. simpl. lra.
Defined.

(** ** Where the specification and the script part *)

(** C6, as stated, does not hold: a record with market size 0 is scored like
    any other, and the run returns a table holding it; the script has no
    [InvalidMetricError]. *)
Lemma zero_market_size_is_scored :
  exists t,
    rank sort_values_small [mkRow "Healthcare" 75 30 20 0 90] default_weights
      = Ok t /\
    map base t = [mkRow "Healthcare" 75 30 20 0 90] /\
    rank sort_values_small [mkRow "Healthcare" 75 30 20 0 90] default_weights
      <> Raise "InvalidMetricError"%string.
Proof.
  destruct (rank_nonzero sort_values_small
              [mkRow "Healthcare" 75 30 20 0 90] default_weights
              total_weight_default_nonzero) as [w [_ Hr]].
  eexists. split; [exact Hr |]. split.
  - reflexivity.
  - rewrite Hr. discriminate.
Qed.

(** C7, as stated, does not hold: for a name no entity carries the filter
    returns an empty table and nothing is raised; the script has no
    [NotFoundError]. *)
Lemma detail_unknown_name_is_empty :
  exists t,
    run sort_values_small default_weights = Ok t /\
    filtered_df t "Nonexistent" = [].
Proof.
  destruct (rank_nonzero sort_values_small df default_weights
              total_weight_default_nonzero) as [w [_ Hr]].
  eexists. split; [exact Hr |].
  apply Permutation_nil. symmetry.
  rewrite (filtered_df_sorted _ sort_values_small_ok w "Nonexistent").
  reflexivity.
Qed.

(** Settling the comparisons of a sort over explicit scores, innermost
    insertion first. *)
Ltac settle_scores := simpl; unfold calculate_aidgi; simpl; lra.

Ltac decide_Rltb :=
  repeat match goal with
    | |- context [Rltb ?a ?b] =>
        first
          [ replace (Rltb a b) with true
              by (symmetry; apply Rltb_true; settle_scores)
          | replace (Rltb a b) with false
              by (symmetry; apply Rltb_false; settle_scores) ];
        cbv iota; cbn [insert_from_right]
    end.

Ltac unfold_df :=
  rewrite ?score_map; unfold df;
  cbn [DataFrame data.Industry data.AI_Adoption data.Efficiency_Improvement
       data.Revenue_Growth data.Market_Size data.Growth_Potential
       map rev app fold_right insert_from_right filter].

Ltac rank_df :=
  unfold sort_values_small; rewrite sort_descending_fold;
  unfold_df; decide_Rltb.

Lemma run_unit_sum (sort_values : sorting) (w : weights) :
  total_weight w = 1 -> run sort_values w = Ok (sort_values (score df w)).
Proof.
  intros H1. unfold run, rank. now rewrite (normalize_unit_sum w H1).
Qed.

(** ** Bounds on the two transforms *)

Lemma exp_double_lower (x a b : R) :
  0 <= a -> a <= exp (x / 2) -> b <= a * a -> b <= exp x.
Proof.
  intros Ha Hle Hb.
  replace (exp x) with (exp (x / 2) * exp (x / 2)).
  - nra.
  - rewrite <- exp_plus. f_equal. field.
Qed.

Lemma exp_double_upper (x a b : R) :
  exp (x / 2) <= a -> a * a <= b -> exp x <= b.
Proof.
  intros Hle Hb. pose proof (exp_pos (x / 2)) as Hpos.
  replace (exp x) with (exp (x / 2) * exp (x / 2)).
  - nra.
  - rewrite <- exp_plus. f_equal. field.
Qed.

Lemma exp_upper_base (y a : R) : y < 1 -> 1 <= a * (1 - y) -> exp y <= a.
Proof.
  intros Hy Ha.
  pose proof (exp_ineq1_le (- y)) as Hm.
  pose proof (exp_pos y) as Hp.
  assert (Hone : exp y * exp (- y) = 1).
  { rewrite <- exp_plus. replace (y + - y) with 0 by ring. apply exp_0. }
  nra.
Qed.

Lemma exp_09_lower : 2.459 <= exp 0.9.
Proof.
  apply Rle_trans with 2.459359949549; [lra |].
  apply (exp_double_lower _ 1.568234660231); [lra | | lra].
  apply (exp_double_lower _ 1.252291763221); [lra | | lra].
  apply (exp_double_lower _ 1.119058427081); [lra | | lra].
  apply (exp_double_lower _ 1.057855579501); [lra | | lra].
  apply (exp_double_lower _ 1.028521064199); [lra | | lra].
  apply (exp_double_lower _ 1.0141602754); [lra | | lra].
  apply (exp_double_lower _ 1.007055249428); [lra | | lra].
  apply (exp_double_lower _ 1.003521424499); [lra | | lra].
  apply (exp_double_lower _ 1.001759164919); [lra | | lra].
  apply (exp_double_lower _ 1.000879195967); [lra | | lra].
  apply (exp_double_lower _ 1.000439501403); [lra | | lra].
  apply (exp_double_lower _ 1.000219726562); [lra | | lra].
  eapply Rle_trans; [| apply exp_ineq1_le]. lra.
Qed.

Lemma exp_09_upper : exp 0.9 <= 2.461.
Proof.
  apply Rle_trans with 2.45984636081; [| lra].
  apply (exp_double_upper _ 1.568389734986); [| lra].
  apply (exp_double_upper _ 1.252353678074); [| lra].
  apply (exp_double_upper _ 1.119086090555); [| lra].
  apply (exp_double_upper _ 1.05786865468); [| lra].
  apply (exp_double_upper _ 1.02852742048); [| lra].
  apply (exp_double_upper _ 1.01416340916); [| lra].
  apply (exp_double_upper _ 1.007056805329); [| lra].
  apply (exp_double_upper _ 1.003522199719); [| lra].
  apply (exp_double_upper _ 1.001759551848); [| lra].
  apply (exp_double_upper _ 1.000879389261); [| lra].
  apply (exp_double_upper _ 1.000439598007); [| lra].
  apply (exp_double_upper _ 1.000219774853); [| lra].
  apply exp_upper_base; lra.
Qed.

Lemma ln_200_lower : 5.295 < ln 200.
Proof.
  apply exp_lt_inv. rewrite exp_ln by lra.
  apply Rle_lt_trans with 199.6; [| lra].
  apply Rle_trans with 199.508297643467; [| lra].
  apply (exp_double_upper _ 14.124740622166); [| lra].
  apply (exp_double_upper _ 3.758289587321); [| lra].
  apply (exp_double_upper _ 1.938630853804); [| lra].
  apply (exp_double_upper _ 1.392347246129); [| lra].
  apply (exp_double_upper _ 1.179977646453); [| lra].
  apply (exp_double_upper _ 1.086267760017); [| lra].
  apply (exp_double_upper _ 1.042241699423); [| lra].
  apply (exp_double_upper _ 1.02090239466); [| lra].
  apply (exp_double_upper _ 1.010397146997); [| lra].
  apply (exp_double_upper _ 1.005185130708); [| lra].
  apply (exp_double_upper _ 1.002589213341); [| lra].
  apply (exp_double_upper _ 1.00129376975); [| lra].
  apply (exp_double_upper _ 1.00064667578); [| lra].
  apply (exp_double_upper _ 1.000323285633); [| lra].
  apply exp_upper_base; lra.
Qed.

Lemma ln_200_upper : ln 200 < 5.305.
Proof.
  apply exp_lt_inv. rewrite exp_ln by lra.
  apply Rlt_le_trans with 201; [lra |].
  apply Rle_trans with 201.168185515985; [lra |].
  apply (exp_double_lower _ 14.183377084319); [lra | | lra].
  apply (exp_double_lower _ 3.766082458513); [lra | | lra].
  apply (exp_double_lower _ 1.940639703426); [lra | | lra].
  apply (exp_double_lower _ 1.393068448938); [lra | | lra].
  apply (exp_double_lower _ 1.18028320709); [lra | | lra].
  apply (exp_double_lower _ 1.086408397929); [lra | | lra].
  apply (exp_double_lower _ 1.042309166193); [lra | | lra].
  apply (exp_double_lower _ 1.020935436839); [lra | | lra].
  apply (exp_double_lower _ 1.01041349795); [lra | | lra].
  apply (exp_double_lower _ 1.00519326398); [lra | | lra].
  apply (exp_double_lower _ 1.002593269467); [lra | | lra].
  apply (exp_double_lower _ 1.001295795191); [lra | | lra].
  apply (exp_double_lower _ 1.000647687846); [lra | | lra].
  apply (exp_double_lower _ 1.000323791503); [lra | | lra].
  eapply Rle_trans; [| apply exp_ineq1_le]. lra.
Qed.


(** ** The default weights on the first record *)

(** C9.  The weights (0.35, 0.25, 0.20, 0.10, 0.10) sum to 1, so that
    normalisation leaves them as they are.  Applied to the record with
    AI adoption 75, efficiency improvement 30, revenue growth 20, market size
    200 and growth potential 90 (the first record of the data), the score
    operation yields the index score
    [0.35*75 + 0.25*30 + 0.20*20 + 0.10 * ln 200 + 0.10 * exp 0.9]; the
    logarithmic term is 0.530 and the exponential term 0.246 to three
    decimals, and the score is 38.53 to two decimals. *)
Theorem healthcare_default_score :
  nth_error df 0 = Some (mkRow "Healthcare" 75 30 20 200 90) /\
  normalize default_weights = Ok default_weights /\
  score [mkRow "Healthcare" 75 30 20 200 90] default_weights =
    [mkScored (mkRow "Healthcare" 75 30 20 200 90)
              (0.35 * 75 + 0.25 * 30 + 0.20 * 20 +
               0.10 * ln 200 + 0.10 * exp 0.9)] /\
  Rabs (0.10 * ln 200 - 0.530) < 0.0005 /\
  Rabs (0.10 * exp 0.9 - 0.246) < 0.0005 /\
  Rabs (0.35 * 75 + 0.25 * 30 + 0.20 * 20 + 0.10 * ln 200 + 0.10 * exp 0.9
        - 38.53) < 0.005.
Proof.
  pose proof exp_09_lower. pose proof exp_09_upper.
  pose proof ln_200_lower. pose proof ln_200_upper.
  split; [reflexivity |].
  split; [apply normalize_unit_sum, total_weight_default |].
  split; [| repeat split; apply Rabs_def1; lra].
  rewrite score_map. simpl. unfold calculate_aidgi, np_log, np_exp. simpl.
  replace (90 / 100) with 0.9 by lra. reflexivity.
Qed.

(** ** Concrete runs *)

(** The insertion sort on small keyed lists: equal keys in input order. *)
Example insertion_sort_pairs :
  insertion_sort (fun a b => Nat.ltb (fst a) (fst b))
    [(2, "b"); (1, "a"); (2, "e"); (1, "c")]%nat%string =
  [(1, "a"); (1, "c"); (2, "b"); (2, "e")]%nat%string.
Proof. reflexivity. Qed.

Example sort_descending_pairs :
  sort_descending (fun a b => Nat.ltb (fst a) (fst b))
    [(1, "a"); (2, "b"); (1, "c"); (3, "d"); (2, "e")]%nat%string =
  [(3, "d"); (2, "b"); (2, "e"); (1, "a"); (1, "c")]%nat%string.
Proof. reflexivity. Qed.

(** All the weight on efficiency improvement, under the insertion sort:
    Manufacturing and Entertainment tie at 20 and keep the order of the
    data. *)
Example ranking_efficiency_only :
  exists t,
    run sort_values_small (mkWeights 0 1 0 0 0) = Ok t /\
    selectbox_options t =
      ["Finance"; "Healthcare"; "Retail"; "Manufacturing"; "Entertainment";
       "Transportation"; "Education"]%string.
Proof.
  eexists. split.
  - apply run_unit_sum. unfold total_weight. simpl. lra.
  - rank_df. reflexivity.
Qed.

(** All the weight on AI adoption. *)
Example ranking_adoption_only :
  exists t,
    run sort_values_small (mkWeights 1 0 0 0 0) = Ok t /\
    selectbox_options t =
      ["Finance"; "Healthcare"; "Retail"; "Manufacturing"; "Transportation";
       "Education"; "Entertainment"]%string.
Proof.
  eexists. split.
  - apply run_unit_sum. unfold total_weight. simpl. lra.
  - rank_df. reflexivity.
Qed.

Lemma melt_names (vars : list column) (t : list scored_row) :
  map (fun m => fst (fst m)) (melt vars t) =
  flat_map (fun _ => selectbox_options t) vars.
Proof.
  unfold melt, selectbox_options.
  induction vars as [| c vars IH]; simpl; [reflexivity |].
  now rewrite map_app, IH, map_map.
Qed.

(** The long format lists the entities in ranking order, so that two runs
    agree on its triples but not always on their sequence. *)
Remark melt_sequence_follows_ranking :
  exists t1 t2,
    run sort_values_small (mkWeights 1 0 0 0 0) = Ok t1 /\
    run sort_values_small (mkWeights 0 1 0 0 0) = Ok t2 /\
    melt value_vars t1 <> melt value_vars t2.
Proof.
  destruct ranking_adoption_only as [t1 [H1 N1]].
  destruct ranking_efficiency_only as [t2 [H2 N2]].
  exists t1, t2. split; [exact H1 |]. split; [exact H2 |].
  intros E. apply (f_equal (map (fun m => fst (fst m)))) in E.
  rewrite !melt_names, N1, N2 in E. simpl in E. discriminate.
Qed.

(** * Further properties of the script *)

(** ** The sidebar and the normalisation *)

Lemma normalize_inv (raw w : weights) :
  normalize raw = Ok w ->
  total_weight raw <> 0 /\
  w = mkWeights (ai_weight raw / total_weight raw)
                (eff_weight raw / total_weight raw)
                (rev_weight raw / total_weight raw)
                (market_weight raw / total_weight raw)
                (growth_weight raw / total_weight raw).
Proof.
  intros Hn. destruct (Req_dec_T (total_weight raw) 0) as [E | N].
  - rewrite (normalize_zero raw E) in Hn. discriminate.
  - split; [exact N |].
    rewrite (normalize_nonzero raw N) in Hn. now injection Hn as <-.
Qed.

Lemma non_negative_fields (w : weights) :
  non_negative w ->
  0 <= ai_weight w /\ 0 <= eff_weight w /\ 0 <= rev_weight w /\
  0 <= market_weight w /\ 0 <= growth_weight w.
Proof.
  unfold non_negative, values. intros H.
  repeat match goal with
         | H : Forall _ (_ :: _) |- _ => inversion H; clear H; subst
         end.
  repeat split; assumption.
Qed.

Lemma sidebar_non_negative (w : weights) : sidebar w -> non_negative w.
Proof.
  unfold sidebar, non_negative. apply Forall_impl.
  intros x [H0 _]. exact H0.
Qed.

Lemma normalized_non_negative (raw w : weights) :
  non_negative raw -> 0 < total_weight raw -> normalize raw = Ok w ->
  non_negative w /\ total_weight w = 1.
Proof.
  intros Hnn Hpos Hn.
  destruct (normalize_inv raw w Hn) as [Ht ->].
  destruct (non_negative_fields raw Hnn) as [Ha [He [Hr [Hm Hg]]]].
  split.
  - unfold non_negative, values. simpl.
    assert (Hinv : 0 < / total_weight raw) by now apply Rinv_0_lt_compat.
    repeat (apply Forall_cons;
            [unfold Rdiv; apply Rmult_le_pos; [assumption | lra] |]).
    apply Forall_nil.
  - unfold total_weight at 1. simpl. now apply total_weight_normalized.
Qed.

(** X1.  With the five sliders, each between 0 and 1, a run fails exactly
    when every slider stands at 0, and then with [ZeroDivisionError]; at any
    other setting the weights sum to a positive number, normalise, and the
    run returns the sorted scored table. *)
Theorem sidebar_run_fails_only_at_zero (sort_values : sorting) (raw : weights) :
  sidebar raw ->
  (raw = mkWeights 0 0 0 0 0 ->
   run sort_values raw = Raise "ZeroDivisionError"%string) /\
  (raw <> mkWeights 0 0 0 0 0 ->
   0 < total_weight raw /\
   exists w, normalize raw = Ok w /\
             run sort_values raw = Ok (sort_values (score df w))).
Proof.
  intros Hs.
  destruct (non_negative_fields raw (sidebar_non_negative raw Hs))
    as [Ha [He [Hr [Hm Hg]]]].
  split.
  - intros ->. unfold run, rank. rewrite normalize_zero; [reflexivity |].
    unfold total_weight. simpl. lra.
  - intros Hne.
    assert (Hpos : 0 < total_weight raw).
    { destruct (Rlt_dec 0 (total_weight raw)) as [Hlt | Hnlt]; [exact Hlt |].
      exfalso. apply Hne. unfold total_weight in Hnlt.
      destruct raw as [a e r m g]. simpl in *.
      f_equal; lra. }
    split; [exact Hpos |].
    assert (Ht : total_weight raw <> 0) by lra.
    eexists. split; [apply (normalize_nonzero raw Ht) |].
    unfold run, rank. now rewrite (normalize_nonzero raw Ht).
Qed.

Lemma sidebar_default : sidebar default_weights.
Proof.
  unfold sidebar, values, default_weights, slider. simpl.
  repeat (apply Forall_cons; [lra |]). apply Forall_nil.
Qed.

Lemma sidebar_run_fails_only_at_zero_witness :
  (default_weights = mkWeights 0 0 0 0 0 ->
   run sort_values_small default_weights = Raise "ZeroDivisionError"%string) /\
  (default_weights <> mkWeights 0 0 0 0 0 ->
   0 < total_weight default_weights /\
   exists w, normalize default_weights = Ok w /\
             run sort_values_small default_weights
               = Ok (sort_values_small (score df w))).
Proof.
  exact (sidebar_run_fails_only_at_zero sort_values_small default_weights
                                        sidebar_default).
Defined.

(** ** The scores of a run *)

Lemma weighted_mean_bounds (a e r m g x1 x2 x3 x4 x5 lo hi : R) :
  0 <= a -> 0 <= e -> 0 <= r -> 0 <= m -> 0 <= g ->
  a + e + r + m + g = 1 ->
  lo <= x1 <= hi -> lo <= x2 <= hi -> lo <= x3 <= hi ->
  lo <= x4 <= hi -> lo <= x5 <= hi ->
  lo <= a * x1 + e * x2 + r * x3 + m * x4 + g * x5 <= hi.
Proof.
  intros Ha He Hr Hm Hg Hsum [L1 U1] [L2 U2] [L3 U3] [L4 U4] [L5 U5].
  pose proof (Rmult_le_pos a (x1 - lo) Ha) as P1.
  pose proof (Rmult_le_pos e (x2 - lo) He) as P2.
  pose proof (Rmult_le_pos r (x3 - lo) Hr) as P3.
  pose proof (Rmult_le_pos m (x4 - lo) Hm) as P4.
  pose proof (Rmult_le_pos g (x5 - lo) Hg) as P5.
  pose proof (Rmult_le_pos a (hi - x1) Ha) as Q1.
  pose proof (Rmult_le_pos e (hi - x2) He) as Q2.
  pose proof (Rmult_le_pos r (hi - x3) Hr) as Q3.
  pose proof (Rmult_le_pos m (hi - x4) Hm) as Q4.
  pose proof (Rmult_le_pos g (hi - x5) Hg) as Q5.
  assert (El : a * x1 + e * x2 + r * x3 + m * x4 + g * x5 - lo =
               a * (x1 - lo) + e * (x2 - lo) + r * (x3 - lo) +
               m * (x4 - lo) + g * (x5 - lo)).
  { replace lo with ((a + e + r + m + g) * lo) at 1 by (rewrite Hsum; ring).
    ring. }
  assert (Eh : hi - (a * x1 + e * x2 + r * x3 + m * x4 + g * x5) =
               a * (hi - x1) + e * (hi - x2) + r * (hi - x3) +
               m * (hi - x4) + g * (hi - x5)).
  { replace hi with ((a + e + r + m + g) * hi) at 1 by (rewrite Hsum; ring).
    ring. }
  split; lra.
Qed.

Section Scores.

Variable sort_values : sorting.
Hypothesis sort_values_ok : sorts_descending sort_values.

Lemma sorted_scores (w : weights) (s : scored_row) :
  In s (sort_values (score df w)) ->
  In (base s) df /\
  AIDGI s = calculate_aidgi (base s) (ai_weight w) (eff_weight w)
              (rev_weight w) (market_weight w) (growth_weight w).
Proof.
  intros Hin.
  apply (Permutation_in _ (sort_values_perm _ sort_values_ok (score df w)))
    in Hin.
  rewrite score_map in Hin. apply in_map_iff in Hin.
  destruct Hin as [r [<- Hr]]. split; [exact Hr | reflexivity].
Qed.

(** X4.  With non-negative raw weights of positive sum, every index score of
    the ranked table is a weighted mean of the five quantities of its own
    record (the three percentages, the logarithm of the market size and the
    exponential of the growth potential over 100): it lies between any two
    bounds that enclose these five. *)
Theorem index_score_between_terms (raw : weights) :
  non_negative raw ->
  0 < total_weight raw ->
  exists t,
    run sort_values raw = Ok t /\
    forall s lo hi,
      In s t ->
      Forall (fun x => lo <= x <= hi) (terms (base s)) ->
      lo <= AIDGI s <= hi.
Proof.
  intros Hnn Hpos.
  assert (Ht : total_weight raw <> 0) by lra.
  destruct (rank_nonzero sort_values df raw Ht) as [w [Hn Hr]].
  exists (sort_values (score df w)). split; [exact Hr |].
  intros s lo hi Hin Hb.
  destruct (sorted_scores w s Hin) as [_ ->].
  destruct (normalized_non_negative raw w Hnn Hpos Hn) as [Hw Hone].
  destruct (non_negative_fields w Hw) as [Ha [He [Hrv [Hm Hg]]]].
  unfold terms in Hb.
  repeat match goal with
         | H : Forall _ (_ :: _) |- _ => inversion H; clear H; subst
         end.
  unfold calculate_aidgi.
  apply weighted_mean_bounds; assumption.
Qed.

(** A row with a strictly higher score stands earlier in a descending
    table. *)
Lemma descending_positions (t : list scored_row) :
  descending t ->
  forall i j a b,
    nth_error t i = Some a -> nth_error t j = Some b ->
    AIDGI b < AIDGI a -> (i < j)%nat.
Proof.
  unfold descending. intros Hd.
  apply Sorted_StronglySorted in Hd; [| intros x y z Hxy Hyz; lra].
  induction Hd as [| x l Hs IH Hall]; intros i j a b Ha Hb Hlt.
  - destruct i; discriminate.
  - destruct i as [| i], j as [| j]; simpl in Ha, Hb.
    + injection Ha as <-. injection Hb as <-. lra.
    + apply Nat.lt_0_succ.
    + exfalso. injection Hb as <-.
      apply nth_error_In in Ha.
      rewrite Forall_forall in Hall. specialize (Hall a Ha). lra.
    + apply -> Nat.succ_lt_mono. exact (IH i j a b Ha Hb Hlt).
Qed.

Lemma exceeds_score (w : weights) (r1 r2 : row) :
  non_negative w -> total_weight w = 1 -> exceeds r1 r2 ->
  calculate_aidgi r2 (ai_weight w) (eff_weight w) (rev_weight w)
                  (market_weight w) (growth_weight w) <
  calculate_aidgi r1 (ai_weight w) (eff_weight w) (rev_weight w)
                  (market_weight w) (growth_weight w).
Proof.
  intros Hw Hone [Hai [Heff [Hrev [[Hm0 Hm] Hg]]]].
  destruct (non_negative_fields w Hw) as [Ha [He [Hr [Hmw Hgw]]]].
  assert (Hln : ln (Market_Size r2) < ln (Market_Size r1)).
  { apply ln_increasing; assumption. }
  assert (Hexp : exp (Growth_Potential r2 / 100) < exp (Growth_Potential r1 / 100)).
  { apply exp_increasing. lra. }
  unfold calculate_aidgi, np_log, np_exp. unfold total_weight in Hone.
  destruct (Rle_lt_dec (ai_weight w) 0) as [Za | Pa];
    destruct (Rle_lt_dec (eff_weight w) 0) as [Ze | Pe];
    destruct (Rle_lt_dec (rev_weight w) 0) as [Zr | Pr];
    destruct (Rle_lt_dec (market_weight w) 0) as [Zm | Pm];
    destruct (Rle_lt_dec (growth_weight w) 0) as [Zg | Pg];
    try (exfalso; lra); nra.
Qed.

(** X5.  With non-negative raw weights of positive sum, a record of the data
    that is above another in every one of the five metrics gets a strictly
    higher index score and stands earlier in the ranked table, whatever the
    weights. *)
Theorem higher_in_every_metric_ranks_first (raw : weights) :
  non_negative raw ->
  0 < total_weight raw ->
  exists t,
    run sort_values raw = Ok t /\
    forall i j s1 s2,
      nth_error t i = Some s1 -> nth_error t j = Some s2 ->
      exceeds (base s1) (base s2) ->
      AIDGI s2 < AIDGI s1 /\ (i < j)%nat.
Proof.
  intros Hnn Hpos.
  assert (Ht : total_weight raw <> 0) by lra.
  destruct (rank_nonzero sort_values df raw Ht) as [w [Hn Hr]].
  exists (sort_values (score df w)). split; [exact Hr |].
  intros i j s1 s2 H1 H2 Hex.
  destruct (normalized_non_negative raw w Hnn Hpos Hn) as [Hw Hone].
  assert (Hlt : AIDGI s2 < AIDGI s1).
  { destruct (sorted_scores w s1 (nth_error_In _ _ H1)) as [_ ->].
    destruct (sorted_scores w s2 (nth_error_In _ _ H2)) as [_ ->].
    now apply exceeds_score. }
  split; [exact Hlt |].
  exact (descending_positions _
           (sort_values_descending _ sort_values_ok (score df w))
           i j s1 s2 H1 H2 Hlt).
Qed.

End Scores.

Lemma non_negative_default : non_negative default_weights.
Proof. exact (sidebar_non_negative _ sidebar_default). Qed.

Lemma total_weight_default_positive : 0 < total_weight default_weights.
Proof. rewrite total_weight_default. lra. Qed.

Lemma index_score_between_terms_witness :
  exists t,
    run sort_values_small default_weights = Ok t /\
    forall s lo hi,
      In s t ->
      Forall (fun x => lo <= x <= hi) (terms (base s)) ->
      lo <= AIDGI s <= hi.
Proof.
  exact (index_score_between_terms sort_values_small sort_values_small_ok
           default_weights non_negative_default total_weight_default_positive).
Defined.

Lemma higher_in_every_metric_ranks_first_witness :
  exists t,
    run sort_values_small default_weights = Ok t /\
    forall i j s1 s2,
      nth_error t i = Some s1 -> nth_error t j = Some s2 ->
      exceeds (base s1) (base s2) ->
      AIDGI s2 < AIDGI s1 /\ (i < j)%nat.
Proof.
  exact (higher_in_every_metric_ranks_first sort_values_small
           sort_values_small_ok default_weights non_negative_default
           total_weight_default_positive).
Defined.

(** ** The head of the ranking *)

Lemma df_NoDup : NoDup df.
Proof.
  unfold df. simpl.
  repeat (constructor; [simpl; intuition discriminate |]). constructor.
Qed.

Section Head.

Variable sort_values : sorting.
Hypothesis sort_values_ok : sorts_descending sort_values.

Lemma sorted_row_position (w : weights) (r : row) :
  In r df ->
  exists i s, nth_error (sort_values (score df w)) i = Some s /\ base s = r.
Proof.
  intros Hr.
  apply (Permutation_in _ (Permutation_sym (sorted_base sort_values
           sort_values_ok df w))) in Hr.
  apply in_map_iff in Hr. destruct Hr as [s [Hb Hs]].
  apply In_nth_error in Hs. destruct Hs as [i Hi].
  now exists i, s.
Qed.

(** X6.  With non-negative raw weights of positive sum, the first two rows
    of the ranked table are Healthcare and Finance, in one order or the
    other: no setting of the sliders brings another industry to the first
    or the second place. *)
Theorem first_two_are_healthcare_and_finance (raw : weights) :
  non_negative raw ->
  0 < total_weight raw ->
  exists t a b,
    run sort_values raw = Ok t /\
    firstn 2 (selectbox_options t) = [a; b] /\
    ((a = "Healthcare" /\ b = "Finance") \/
     (a = "Finance" /\ b = "Healthcare"))%string.
Proof.
  intros Hnn Hpos.
  assert (Ht : total_weight raw <> 0) by lra.
  destruct (rank_nonzero sort_values df raw Ht) as [w [Hn Hr]].
  destruct (normalized_non_negative raw w Hnn Hpos Hn) as [Hw Hone].
  set (t := sort_values (score df w)) in *.
  pose proof (sorted_base sort_values sort_values_ok df w) as Hperm.
  fold t in Hperm.
  pose proof (sort_values_descending _ sort_values_ok (score df w)) as Hdesc.
  fold t in Hdesc.
  pose proof (sorted_scores sort_values sort_values_ok w) as Hscore.
  fold t in Hscore.
  destruct (sorted_row_position w (mkRow "Healthcare" 75 30 20 200 90))
    as [iH [sH [HiH HbH]]]; [unfold df; simpl; tauto |].
  destruct (sorted_row_position w (mkRow "Finance" 80 35 25 180 85))
    as [iF [sF [HiF HbF]]]; [unfold df; simpl; tauto |].
  fold t in HiH, HiF.
  assert (HneqHF : iH <> iF).
  { intros E. rewrite E, HiF in HiH. injection HiH as E'.
    rewrite <- E', HbF in HbH. discriminate. }
  (* a row that is neither of the two stands at position 2 or later *)
  assert (Hlate : forall k s, nth_error t k = Some s ->
            Industry (base s) <> "Healthcare"%string ->
            Industry (base s) <> "Finance"%string -> (2 <= k)%nat).
  { intros k s Hk HnH HnF.
    destruct (Hscore s (nth_error_In _ _ Hk)) as [Hin Es].
    destruct (Hscore sH (nth_error_In _ _ HiH)) as [_ EH].
    destruct (Hscore sF (nth_error_In _ _ HiF)) as [_ EF].
    assert (Hex : exceeds (base sH) (base s) /\ exceeds (base sF) (base s)).
    { rewrite HbH, HbF. unfold df in Hin. simpl in Hin.
      destruct Hin as [E | [E | [E | [E | [E | [E | [E | []]]]]]]];
        rewrite <- E in HnH, HnF |- *; simpl in HnH, HnF;
        try (exfalso; apply HnH; reflexivity);
        try (exfalso; apply HnF; reflexivity);
        unfold exceeds; simpl; split; repeat split; lra. }
    destruct Hex as [ExH ExF].
    assert (LH : AIDGI s < AIDGI sH).
    { rewrite Es, EH. now apply exceeds_score. }
    assert (LF : AIDGI s < AIDGI sF).
    { rewrite Es, EF. now apply exceeds_score. }
    pose proof (descending_positions t Hdesc iH k sH s HiH Hk LH) as P1.
    pose proof (descending_positions t Hdesc iF k sF s HiF Hk LF) as P2.
    destruct k as [| [| k]].
    - inversion P1.
    - exfalso. apply HneqHF.
      apply Nat.lt_1_r in P1. apply Nat.lt_1_r in P2. congruence.
    - apply le_n_S, le_n_S, Nat.le_0_l. }
  (* the table has seven rows with distinct records *)
  assert (Hlen : List.length t = 7%nat).
  { rewrite <- (length_map base). now rewrite (Permutation_length Hperm). }
  assert (Hnodup : NoDup (map base t)).
  { apply (Permutation_NoDup (Permutation_sym Hperm)), df_NoDup. }
  destruct t as [| s0 [| s1 rest]]; try discriminate.
  assert (Hname : forall s,
            In (base s) df ->
            Industry (base s) = "Healthcare"%string ->
            base s = mkRow "Healthcare" 75 30 20 200 90).
  { intros s Hin. unfold df in Hin. simpl in Hin.
    destruct Hin as [E | [E | [E | [E | [E | [E | [E | []]]]]]]];
      rewrite <- E; simpl; intros; try discriminate; reflexivity. }
  assert (Hname' : forall s,
            In (base s) df ->
            Industry (base s) = "Finance"%string ->
            base s = mkRow "Finance" 80 35 25 180 85).
  { intros s Hin. unfold df in Hin. simpl in Hin.
    destruct Hin as [E | [E | [E | [E | [E | [E | [E | []]]]]]]];
      rewrite <- E; simpl; intros; try discriminate; reflexivity. }
  assert (Hin0 : In (base s0) df) by (apply Hscore; now left).
  assert (Hin1 : In (base s1) df) by (apply Hscore; right; now left).
  assert (Hdiff : base s0 <> base s1).
  { simpl in Hnodup. inversion Hnodup as [| ? ? Hnot _]; subst.
    intros E. apply Hnot. rewrite E. now left. }
  assert (H0 : Industry (base s0) = "Healthcare"%string \/
               Industry (base s0) = "Finance"%string).
  { destruct (string_dec (Industry (base s0)) "Healthcare") as [E | N1];
      [now left |].
    destruct (string_dec (Industry (base s0)) "Finance") as [E | N2];
      [now right |].
    pose proof (Hlate 0%nat s0 eq_refl N1 N2) as Habs. inversion Habs. }
  assert (H1 : Industry (base s1) = "Healthcare"%string \/
               Industry (base s1) = "Finance"%string).
  { destruct (string_dec (Industry (base s1)) "Healthcare") as [E | N1];
      [now left |].
    destruct (string_dec (Industry (base s1)) "Finance") as [E | N2];
      [now right |].
    pose proof (Hlate 1%nat s1 eq_refl N1 N2) as Habs.
    inversion Habs as [| ? Habs']. inversion Habs'. }
  exists (s0 :: s1 :: rest), (Industry (base s0)), (Industry (base s1)).
  split; [exact Hr |]. split; [reflexivity |].
  destruct H0 as [E0 | E0], H1 as [E1 | E1].
  - exfalso. apply Hdiff.
    now rewrite (Hname s0 Hin0 E0), (Hname s1 Hin1 E1).
  - left. now split.
  - right. now split.
  - exfalso. apply Hdiff.
    now rewrite (Hname' s0 Hin0 E0), (Hname' s1 Hin1 E1).
Qed.

End Head.

Lemma first_two_are_healthcare_and_finance_witness :
  exists t a b,
    run sort_values_small default_weights = Ok t /\
    firstn 2 (selectbox_options t) = [a; b] /\
    ((a = "Healthcare" /\ b = "Finance") \/
     (a = "Finance" /\ b = "Healthcare"))%string.
Proof.
  exact (first_two_are_healthcare_and_finance sort_values_small
           sort_values_small_ok default_weights non_negative_default
           total_weight_default_positive).
Defined.

(** ** The select box, the detailed view and the charts' data *)

Section Views.

Variable sort_values : sorting.
Hypothesis sort_values_ok : sorts_descending sort_values.

Lemma sorted_names_NoDup (w : weights) :
  NoDup (selectbox_options (sort_values (score df w))).
Proof.
  unfold selectbox_options. rewrite <- (map_map base Industry).
  apply (Permutation_NoDup (l := map Industry df)).
  - symmetry. apply Permutation_map, sorted_base, sort_values_ok.
  - unfold df. simpl.
    repeat (constructor; [simpl; intuition discriminate |]). constructor.
Qed.

(** In a table without repeated names the filter by the name of one of its
    rows returns that row alone. *)
Lemma filtered_df_own_name (t : list scored_row) (s : scored_row) :
  NoDup (selectbox_options t) -> In s t ->
  filtered_df t (Industry (base s)) = [s].
Proof.
  unfold filtered_df, selectbox_options.
  induction t as [| x t IH]; intros Hnd Hin; [destruct Hin |].
  simpl in Hnd. inversion Hnd as [| ? ? Hnot Hnd']; subst.
  simpl. destruct Hin as [-> | Hin].
  - rewrite String.eqb_refl. f_equal.
    assert (Hnone : forall l,
              ~ In (Industry (base s)) (map (fun s0 => Industry (base s0)) l) ->
              filter (fun s0 => String.eqb (Industry (base s0))
                                           (Industry (base s))) l = []).
    { induction l as [| y l IHl]; intros Hn; [reflexivity |].
      simpl. destruct (String.eqb_spec (Industry (base y)) (Industry (base s)))
        as [E | N].
      - exfalso. apply Hn. left. exact E.
      - apply IHl. intros Hc. apply Hn. now right. }
    now apply Hnone.
  - destruct (String.eqb_spec (Industry (base x)) (Industry (base s)))
      as [E | N].
    + exfalso. apply Hnot. rewrite E.
      apply (in_map (fun s0 => Industry (base s0))). exact Hin.
    + now apply IH.
Qed.

(** X7.  Whichever of the seven options of the select box is chosen, the
    value it returns is the name of the row at that position of the ranked
    table, and the detailed view filtered by it consists of exactly that
    row. *)
Theorem selected_option_shows_its_row (raw : weights) (choice : nat) :
  total_weight raw <> 0 ->
  (choice < 7)%nat ->
  exists t s,
    run sort_values raw = Ok t /\
    nth_error t choice = Some s /\
    selectbox (selectbox_options t) choice = Some (Industry (base s)) /\
    filtered_df t (Industry (base s)) = [s].
Proof.
  intros Ht Hc.
  destruct (rank_nonzero sort_values df raw Ht) as [w [_ Hr]].
  pose proof (sorted_base sort_values sort_values_ok df w) as Hperm.
  assert (Hlen : List.length (sort_values (score df w)) = 7%nat).
  { rewrite <- (length_map base). now rewrite (Permutation_length Hperm). }
  destruct (nth_error (sort_values (score df w)) choice) as [s |] eqn:Hs.
  - exists (sort_values (score df w)), s.
    split; [exact Hr |]. split; [exact Hs |]. split.
    + unfold selectbox, selectbox_options.
      now rewrite nth_error_map, Hs.
    + apply filtered_df_own_name.
      * apply sorted_names_NoDup.
      * exact (nth_error_In _ _ Hs).
  - exfalso. apply nth_error_None in Hs. rewrite Hlen in Hs.
    apply (Nat.lt_irrefl choice).
    exact (Nat.lt_le_trans _ _ _ Hc Hs).
Qed.

(** X8.  Until the user picks another option the select box returns the
    first one, which is the name of a row whose index score no row of the
    table exceeds: the detailed view opens on a top-ranked industry. *)
Theorem default_selection_is_top_ranked (raw : weights) :
  total_weight raw <> 0 ->
  exists t s,
    run sort_values raw = Ok t /\
    selectbox (selectbox_options t) 0 = Some (Industry (base s)) /\
    In s t /\
    forall s', In s' t -> AIDGI s' <= AIDGI s.
Proof.
  intros Ht.
  destruct (rank_nonzero sort_values df raw Ht) as [w [_ Hr]].
  pose proof (sorted_base sort_values sort_values_ok df w) as Hperm.
  pose proof (sort_values_descending _ sort_values_ok (score df w)) as Hd.
  destruct (sort_values (score df w)) as [| s rest] eqn:Et.
  - apply Permutation_length in Hperm. discriminate.
  - exists (s :: rest), s.
    split; [exact Hr |]. split; [reflexivity |]. split; [now left |].
    unfold descending in Hd.
    apply Sorted_StronglySorted in Hd; [| intros x y z Hxy Hyz; lra].
    inversion Hd as [| ? ? _ Hall]; subst.
    intros s' [<- | Hin]; [lra |].
    rewrite Forall_forall in Hall. specialize (Hall s' Hin). lra.
Qed.

(** X9.  The data of the detailed chart, the long format of the table
    filtered by one of the seven industry names, holds one triple per
    requested metric, in the order requested: that name, the name of the
    metric, and the value the record of that industry in the data has for
    the metric, whatever the weights. *)
Theorem detail_melt_raw_triples (raw : weights) (vars : list column)
  (industry : string) :
  total_weight raw <> 0 ->
  In industry data.Industry ->
  exists t r,
    run sort_values raw = Ok t /\
    In r df /\
    Industry r = industry /\
    melt vars (filtered_df t industry) = map (fun c => raw_triple c r) vars.
Proof.
  intros Ht Hin.
  destruct (rank_nonzero sort_values df raw Ht) as [w [_ Hr]].
  destruct (filter_df_listed industry Hin) as [r [Hf Hname]].
  pose proof (filtered_df_sorted sort_values sort_values_ok w industry) as Hp.
  rewrite Hf in Hp.
  change (score [r] w)
    with [mkScored r (calculate_aidgi r (ai_weight w) (eff_weight w)
                        (rev_weight w) (market_weight w) (growth_weight w))]
    in Hp.
  symmetry in Hp. apply Permutation_length_1_inv in Hp.
  exists (sort_values (score df w)), r.
  split; [exact Hr |]. split.
  - assert (Hr' : In r (filter (fun r => String.eqb (Industry r) industry) df)).
    { rewrite Hf. now left. }
    now apply filter_In in Hr'.
  - split; [exact Hname |].
    rewrite Hp, melt_raw_triple. simpl.
    induction vars as [| c vars IH]; simpl; [reflexivity |].
    now rewrite IH.
Qed.

Lemma column_name_injective (c d : column) :
  column_name c = column_name d -> c = d.
Proof. destruct c, d; simpl; intros E; try reflexivity; discriminate. Qed.

Lemma melt_keys (vars : list column) (t : list scored_row) :
  map fst (melt vars t) =
  flat_map (fun c => map (fun n => (n, column_name c)) (selectbox_options t))
           vars.
Proof.
  unfold melt, selectbox_options.
  induction vars as [| c vars IH]; simpl; [reflexivity |].
  now rewrite map_app, IH, !map_map.
Qed.

Lemma keys_NoDup (names : list string) (vars : list column) :
  NoDup names -> NoDup vars ->
  NoDup (flat_map (fun c => map (fun n => (n, column_name c)) names) vars).
Proof.
  intros Hn Hv. induction Hv as [| c vars Hnot Hv IH]; simpl.
  - constructor.
  - apply NoDup_app.
    + apply Finite.Injective_map_NoDup; [| exact Hn].
      intros x y E. now injection E.
    + exact IH.
    + intros k Hk Hk'.
      apply in_map_iff in Hk. destruct Hk as [n [<- _]].
      apply in_flat_map in Hk'. destruct Hk' as [d [Hd Hk']].
      apply in_map_iff in Hk'. destruct Hk' as [n' [E _]].
      injection E as _ E. apply column_name_injective in E. subst d.
      contradiction.
Qed.

(** X10.  The data of a grouped chart, the long format of the ranked table
    for a list of distinct metrics, holds one triple for each pair of an
    industry and a requested metric and none twice: seven triples per
    metric, thirty-five for the five metrics of the script. *)
Theorem melt_one_triple_per_pair (raw : weights) (vars : list column) :
  total_weight raw <> 0 ->
  NoDup vars ->
  exists t,
    run sort_values raw = Ok t /\
    NoDup (map fst (melt vars t)) /\
    List.length (melt vars t) = (List.length vars * 7)%nat /\
    forall n c, In n data.Industry -> In c vars ->
                In (n, column_name c) (map fst (melt vars t)).
Proof.
  intros Ht Hv.
  destruct (rank_nonzero sort_values df raw Ht) as [w [_ Hr]].
  exists (sort_values (score df w)). split; [exact Hr |].
  pose proof (sorted_base sort_values sort_values_ok df w) as Hperm.
  assert (Hlen : List.length (sort_values (score df w)) = 7%nat).
  { rewrite <- (length_map base). now rewrite (Permutation_length Hperm). }
  split; [| split].
  - rewrite melt_keys. apply keys_NoDup; [apply sorted_names_NoDup | exact Hv].
  - unfold melt. clear Hv.
    induction vars as [| c vars IH]; [reflexivity |].
    cbn [flat_map List.length]. rewrite length_app, length_map, Hlen.
    cbn [Nat.mul]. f_equal. exact IH.
  - intros n c Hn Hc. rewrite melt_keys.
    apply in_flat_map. exists c. split; [exact Hc |].
    apply (in_map (fun n0 => (n0, column_name c))).
    unfold selectbox_options.
    rewrite <- (map_map base Industry).
    apply (Permutation_in n
             (Permutation_sym (Permutation_map Industry Hperm))).
    exact Hn.
Qed.

End Views.

Lemma selected_option_shows_its_row_witness :
  exists t s,
    run sort_values_small default_weights = Ok t /\
    nth_error t 3 = Some s /\
    selectbox (selectbox_options t) 3 = Some (Industry (base s)) /\
    filtered_df t (Industry (base s)) = [s].
Proof.
  apply (selected_option_shows_its_row sort_values_small sort_values_small_ok
           default_weights 3 total_weight_default_nonzero).
  repeat constructor.
Defined.

Lemma default_selection_is_top_ranked_witness :
  exists t s,
    run sort_values_small default_weights = Ok t /\
    selectbox (selectbox_options t) 0 = Some (Industry (base s)) /\
    In s t /\
    forall s', In s' t -> AIDGI s' <= AIDGI s.
Proof.
  exact (default_selection_is_top_ranked sort_values_small
           sort_values_small_ok default_weights total_weight_default_nonzero).
Defined.

Lemma detail_melt_raw_triples_witness :
  exists t r,
    run sort_values_small default_weights = Ok t /\
    In r df /\
    Industry r = "Education"%string /\
    melt value_vars (filtered_df t "Education") =
      map (fun c => raw_triple c r) value_vars.
Proof.
  apply (detail_melt_raw_triples sort_values_small sort_values_small_ok
           default_weights value_vars "Education"
           total_weight_default_nonzero).
  unfold data.Industry. simpl. tauto.
Defined.

Lemma melt_one_triple_per_pair_witness :
  exists t,
    run sort_values_small default_weights = Ok t /\
    NoDup (map fst (melt value_vars t)) /\
    List.length (melt value_vars t) = (List.length value_vars * 7)%nat /\
    forall n c, In n data.Industry -> In c value_vars ->
                In (n, column_name c) (map fst (melt value_vars t)).
Proof.
  apply (melt_one_triple_per_pair sort_values_small sort_values_small_ok
           default_weights value_vars total_weight_default_nonzero).
  unfold value_vars.
  repeat (constructor; [simpl; intuition discriminate |]). constructor.
Defined.

(** ** One factor alone *)

Lemma Sorted_among {A : Type} (P : A -> Prop) (R1 R2 : A -> A -> Prop)
  (l : list A) :
  (forall a b, P a -> P b -> R1 a b -> R2 a b) ->
  Forall P l -> Sorted R1 l -> Sorted R2 l.
Proof.
  intros Himp Hall Hs.
  induction Hs as [| x l Hs IH Hhd]; constructor.
  - apply IH. now inversion Hall.
  - inversion Hall as [| ? ? Px Pl]; subst.
    destruct Hhd as [| y l Hxy]; constructor.
    apply Himp; [exact Px | now inversion Pl | exact Hxy].
Qed.

Lemma single_weight_normalized (c : column) (a : R) :
  0 < a -> normalize (single_weight c a) = Ok (single_weight c 1).
Proof.
  intros Ha.
  assert (Ht : total_weight (single_weight c a) <> 0).
  { destruct c; unfold total_weight; simpl; lra. }
  rewrite (normalize_nonzero _ Ht).
  destruct c; unfold total_weight; simpl; f_equal; f_equal; field; lra.
Qed.

Lemma single_weight_score (c : column) (r : row) :
  calculate_aidgi r (ai_weight (single_weight c 1))
    (eff_weight (single_weight c 1)) (rev_weight (single_weight c 1))
    (market_weight (single_weight c 1)) (growth_weight (single_weight c 1)) =
  match c with
  | col_Market_Size => ln (Market_Size r)
  | col_Growth_Potential => exp (Growth_Potential r / 100)
  | _ => get_column c r
  end.
Proof.
  destruct c; unfold calculate_aidgi, np_log, np_exp; simpl; ring.
Qed.

Section OneFactor.

Variable sort_values : sorting.
Hypothesis sort_values_ok : sorts_descending sort_values.

(** X11.  With all the weight on one slider, at whatever positive value, the
    index score of every row is its quantity for that metric alone (the
    metric itself, the logarithm of the market size, or the exponential of
    the growth potential over 100), and the ranked table is in descending
    order of the raw metric: the logarithm and the exponential do not change
    the order. *)
Theorem single_factor_ranks_by_metric (c : column) (a : R) :
  0 < a ->
  exists t,
    run sort_values (single_weight c a) = Ok t /\
    Forall (fun s => AIDGI s =
                       match c with
                       | col_Market_Size => ln (Market_Size (base s))
                       | col_Growth_Potential =>
                           exp (Growth_Potential (base s) / 100)
                       | _ => get_column c (base s)
                       end) t /\
    Sorted (fun s1 s2 => get_column c (base s1) >= get_column c (base s2)) t.
Proof.
  intros Ha.
  exists (sort_values (score df (single_weight c 1))).
  assert (Hscores : forall s,
            In s (sort_values (score df (single_weight c 1))) ->
            0 < Market_Size (base s) /\
            AIDGI s =
              match c with
              | col_Market_Size => ln (Market_Size (base s))
              | col_Growth_Potential => exp (Growth_Potential (base s) / 100)
              | _ => get_column c (base s)
              end).
  { intros s Hs.
    destruct (sorted_scores sort_values sort_values_ok _ s Hs) as [Hin ->].
    split; [| apply single_weight_score].
    pose proof df_market_sizes_positive as Hpos.
    rewrite Forall_forall in Hpos. now apply Hpos. }
  split; [| split].
  - unfold run, rank. now rewrite (single_weight_normalized c a Ha).
  - apply Forall_forall. intros s Hs. now apply Hscores.
  - pose proof (sort_values_descending _ sort_values_ok
                  (score df (single_weight c 1))) as Hd.
    unfold descending in Hd.
    apply (Sorted_among
             (fun s => In s (sort_values (score df (single_weight c 1))))
             (fun a0 b => AIDGI a0 >= AIDGI b)); [| | exact Hd].
    + intros s1 s2 H1 H2 Hge.
      destruct (Hscores s1 H1) as [P1 E1].
      destruct (Hscores s2 H2) as [P2 E2].
      rewrite E1, E2 in Hge.
      destruct c; simpl; try exact Hge.
      * apply Rle_ge. apply Rnot_lt_le. intros Hlt.
        pose proof (ln_increasing _ _ P1 Hlt). lra.
      * apply Rle_ge. apply Rnot_lt_le. intros Hlt.
        assert (Hlt' : Growth_Potential (base s1) / 100 <
                       Growth_Potential (base s2) / 100) by lra.
        pose proof (exp_increasing _ _ Hlt'). lra.
    + apply Forall_forall. intros s Hs. exact Hs.
Qed.

End OneFactor.

Lemma single_factor_ranks_by_metric_witness :
  exists t,
    run sort_values_small (single_weight col_Market_Size 0.5) = Ok t /\
    Forall (fun s => AIDGI s = ln (Market_Size (base s))) t /\
    Sorted (fun s1 s2 => Market_Size (base s1) >= Market_Size (base s2)) t.
Proof.
  apply (single_factor_ranks_by_metric sort_values_small sort_values_small_ok
           col_Market_Size 0.5).
  lra.
Defined.

(** ** The frame and its columns *)

(** X12.  A frame built from six columns of one length has that many rows,
    and each of its columns, read back across the rows, is the column it was
    built from. *)
Theorem DataFrame_columns (ind : list string)
  (ai eff rev market growth : list R) :
  List.length ai = List.length ind ->
  List.length eff = List.length ind ->
  List.length rev = List.length ind ->
  List.length market = List.length ind ->
  List.length growth = List.length ind ->
  List.length (DataFrame ind ai eff rev market growth) = List.length ind /\
  map Industry (DataFrame ind ai eff rev market growth) = ind /\
  map AI_Adoption (DataFrame ind ai eff rev market growth) = ai /\
  map Efficiency_Improvement (DataFrame ind ai eff rev market growth) = eff /\
  map Revenue_Growth (DataFrame ind ai eff rev market growth) = rev /\
  map Market_Size (DataFrame ind ai eff rev market growth) = market /\
  map Growth_Potential (DataFrame ind ai eff rev market growth) = growth.
Proof.
  revert ai eff rev market growth.
  induction ind as [| i ind IH];
    intros [| a ai] [| e eff] [| r rev] [| m market] [| g growth]
           Hai Heff Hrev Hmarket Hgrowth;
    try discriminate.
  - repeat split.
  - simpl in Hai, Heff, Hrev, Hmarket, Hgrowth.
    injection Hai as Hai. injection Heff as Heff. injection Hrev as Hrev.
    injection Hmarket as Hmarket. injection Hgrowth as Hgrowth.
    destruct (IH ai eff rev market growth Hai Heff Hrev Hmarket Hgrowth)
      as [Hl [H0 [H1 [H2 [H3 [H4 H5]]]]]].
    simpl. repeat split; f_equal; assumption.
Qed.

Lemma DataFrame_columns_witness :
  List.length df = List.length data.Industry /\
  map Industry df = data.Industry /\
  map AI_Adoption df = data.AI_Adoption /\
  map Efficiency_Improvement df = data.Efficiency_Improvement /\
  map Revenue_Growth df = data.Revenue_Growth /\
  map Market_Size df = data.Market_Size /\
  map Growth_Potential df = data.Growth_Potential.
Proof.
  apply (DataFrame_columns data.Industry data.AI_Adoption
           data.Efficiency_Improvement data.Revenue_Growth data.Market_Size
           data.Growth_Potential); reflexivity.
Defined.

(** ** The run on doubles *)

Section DoubleFacts.

Import PrimFloat.
#[local] Set Warnings "-inexact-float".

(** A term of weight 0: the product is a zero, which changes no sum that is
    a non-zero number. *)
Lemma zero_weight_term (x y : float) :
  Double.nonzero_number x = true -> Double.finite y = true ->
  (x + 0 * y)%float = x.
Proof.
  unfold Double.nonzero_number, Double.finite. intros Hx Hy.
  apply FloatAxioms.Prim2SF_inj.
  rewrite FloatAxioms.add_spec, FloatAxioms.mul_spec.
  destruct (FloatOps.Prim2SF x) as [sx | sx | | sx mx ex]; try discriminate.
  destruct (FloatOps.Prim2SF y) as [sy | sy | | sy my ey]; try discriminate;
    reflexivity.
Qed.

Lemma score_without_log_exp (np_log np_exp : float -> float)
  (rows : list Double.row) (a e r : float) :
  Forall (fun x => Double.finite (np_log (Double.Market_Size x)) = true /\
                   Double.finite
                     (np_exp (Double.Growth_Potential x / 100)%float) = true)
         rows ->
  forallb (fun x => Double.nonzero_number
                      (a * Double.AI_Adoption x +
                       e * Double.Efficiency_Improvement x +
                       r * Double.Revenue_Growth x)%float) rows = true ->
  Double.score np_log np_exp rows (Double.mkWeights a e r 0 0) =
  map (fun x => Double.mkScored x
                  (a * Double.AI_Adoption x +
                   e * Double.Efficiency_Improvement x +
                   r * Double.Revenue_Growth x)%float) rows.
Proof.
  intros Hfin. induction Hfin as [| x rows [Hl He] _ IH]; intros Hnz.
  - reflexivity.
  - simpl in Hnz. apply andb_prop in Hnz. destruct Hnz as [Hx Hrest].
    simpl. rewrite <- (IH Hrest). f_equal. f_equal.
    unfold Double.calculate_aidgi.
    rewrite (zero_weight_term _ _ Hx Hl).
    now rewrite (zero_weight_term _ _ Hx He).
Qed.

Lemma filter_split_Permutation {A : Type} (f : A -> bool) (l : list A) :
  Permutation (filter (fun a => negb (f a)) l ++ filter f l) l.
Proof.
  induction l as [| a l IH]; simpl; [constructor |].
  destruct (f a); simpl.
  - symmetry. apply Permutation_cons_app. now symmetry.
  - now constructor.
Qed.

Lemma double_sort_values_perm (t : list Double.scored_row) :
  Permutation (Double.sort_values t) t.
Proof.
  unfold Double.sort_values.
  transitivity (filter (fun s => negb (Double.isna s)) t
                ++ filter Double.isna t).
  - apply Permutation_app_tail, sort_descending_perm.
  - apply filter_split_Permutation.
Qed.

Lemma double_run_names (np_log np_exp : float -> float)
  (raw : Double.weights) (t : list Double.scored_row) :
  Double.run np_log np_exp raw = Ok t ->
  Permutation (Double.names t) data.Industry.
Proof.
  unfold Double.run. destruct (Double.normalize raw) as [w | e]; simpl;
    [| discriminate].
  intros E. injection E as <-.
  unfold Double.names.
  transitivity (map (fun s => Double.Industry (Double.base s))
                    (Double.score np_log np_exp Double.df w)).
  - apply Permutation_map, double_sort_values_perm.
  - unfold Double.score. rewrite map_map. apply Permutation_refl.
Qed.


Lemma double_runs (np_log np_exp : float -> float) (a e r : float)
  (t : Double.weights) :
  Double.finite_on_data np_log np_exp ->
  Double.normalize (Double.mkWeights a e r 0 0) = Ok t ->
  Double.market_weight t = 0%float -> Double.growth_weight t = 0%float ->
  forallb (fun x => Double.nonzero_number
                      (Double.ai_weight t * Double.AI_Adoption x +
                       Double.eff_weight t * Double.Efficiency_Improvement x +
                       Double.rev_weight t * Double.Revenue_Growth x)%float)
          Double.df = true ->
  Double.run np_log np_exp (Double.mkWeights a e r 0 0) =
  Ok (Double.sort_values
        (map (fun x => Double.mkScored x
                (Double.ai_weight t * Double.AI_Adoption x +
                 Double.eff_weight t * Double.Efficiency_Improvement x +
                 Double.rev_weight t * Double.Revenue_Growth x)%float)
             Double.df)).
Proof.
  intros Hfin Hn Hm Hg Hnz. unfold Double.run. rewrite Hn. cbn [Py.bind].
  destruct t as [ta te tr tm tg].
  cbn [Double.market_weight Double.growth_weight] in Hm, Hg. subst tm tg.
  f_equal. f_equal.
  exact (score_without_log_exp np_log np_exp Double.df ta te tr Hfin Hnz).
Qed.





(** ** The order of the table on doubles *)

Lemma SFltb_asym (x y : SpecFloat.spec_float) : SpecFloat.SFltb x y = true -> SpecFloat.SFltb y x = false.
Proof.
  unfold SpecFloat.SFltb.
  destruct x as [sx | sx | | sx mx ex], y as [sy | sy | | sy my ey];
    simpl; try discriminate; try reflexivity;
    try (destruct sx; discriminate || reflexivity);
    try (destruct sy; discriminate || reflexivity);
    try (destruct sx, sy; discriminate || reflexivity).
  destruct sx, sy; try discriminate; try reflexivity;
    rewrite (Z.compare_antisym ex ey);
    destruct (Z.compare ex ey); simpl; try discriminate; try reflexivity;
    change (Pos.compare_cont Eq my mx) with (Pos.compare my mx);
    change (Pos.compare_cont Eq mx my) with (Pos.compare mx my);
    rewrite (Pos.compare_antisym mx my);
    destruct (Pos.compare mx my); simpl; discriminate || reflexivity.
Qed.

Lemma SFeqb_finite (x v : SpecFloat.spec_float) :
  SpecFloat.SFeqb x v = true ->
  (exists s s', x = SpecFloat.S754_zero s /\ v = SpecFloat.S754_zero s') \/
  (exists s, x = SpecFloat.S754_infinity s /\ v = SpecFloat.S754_infinity s) \/
  (exists s m e, x = SpecFloat.S754_finite s m e /\ v = SpecFloat.S754_finite s m e).
Proof.
  unfold SpecFloat.SFeqb.
  destruct x as [sx | sx | | sx mx ex], v as [sv | sv | | sv mv ev];
    simpl; try discriminate;
    try (destruct sx; discriminate); try (destruct sv; discriminate).
  - intros _. left. now exists sx, sv.
  - destruct sx, sv; try discriminate; intros _; right; left; eexists; eauto.
  - destruct sx, sv; try discriminate;
      destruct (Z.compare ex ev) eqn:Ee; try discriminate;
      apply Z.compare_eq in Ee; subst ev;
      change (Pos.compare_cont Eq mx mv) with (Pos.compare mx mv);
      destruct (Pos.compare mx mv) eqn:Em; try discriminate;
      apply Pos.compare_eq in Em; subst mv; intros _;
      right; right; eexists; eexists; eexists; eauto.
Qed.

Lemma SFltb_irrefl (x : SpecFloat.spec_float) : SpecFloat.SFltb x x = false.
Proof.
  unfold SpecFloat.SFltb. destruct x as [s | s | | s m e]; simpl; try reflexivity.
  - destruct s; reflexivity.
  - destruct s; rewrite Z.compare_refl;
      change (Pos.compare_cont Eq m m) with (Pos.compare m m);
      rewrite Pos.compare_refl; reflexivity.
Qed.

Lemma SFeqb_tied (x y v : SpecFloat.spec_float) :
  SpecFloat.SFeqb x v = true -> SpecFloat.SFeqb y v = true -> SpecFloat.SFltb x y = false.
Proof.
  intros Hx Hy.
  destruct (SFeqb_finite x v Hx)
    as [[s [s' [Ex Ev]]] | [[s [Ex Ev]] | [s [m [e [Ex Ev]]]]]];
    destruct (SFeqb_finite y v Hy)
      as [[t [t' [Ey Ev']]] | [[t [Ey Ev']] | [t [m' [e' [Ey Ev']]]]]];
    subst x y; rewrite Ev in Ev'; try discriminate Ev'.
  - reflexivity.
  - injection Ev' as <-. apply SFltb_irrefl.
  - injection Ev' as <- <- <-. apply SFltb_irrefl.
Qed.

Lemma double_ltb_asym (a b : float) :
  (a <? b)%float = true -> (b <? a)%float = false.
Proof. rewrite !FloatAxioms.ltb_spec. apply SFltb_asym. Qed.

Lemma double_eqb_tied (a b v : float) :
  (a =? v)%float = true -> (b =? v)%float = true -> (a <? b)%float = false.
Proof.
  rewrite !FloatAxioms.eqb_spec, FloatAxioms.ltb_spec. apply SFeqb_tied.
Qed.

Lemma double_eqb_not_nan (a v : float) :
  (a =? v)%float = true -> is_nan a = false.
Proof.
  unfold is_nan. rewrite !FloatAxioms.eqb_spec. intros H.
  destruct (SFeqb_finite _ _ H)
    as [[s [s' [-> _]]] | [[s [-> _]] | [s [m [e [-> _]]]]]];
    unfold SpecFloat.SFeqb; simpl.
  - reflexivity.
  - destruct s; reflexivity.
  - destruct s; rewrite Z.compare_refl;
      change (Pos.compare_cont Eq m m) with (Pos.compare m m);
      rewrite Pos.compare_refl; reflexivity.
Qed.

Lemma double_nan_not_above (a b : float) :
  is_nan b = true -> (a <? b)%float = false.
Proof.
  unfold is_nan. rewrite FloatAxioms.eqb_spec, FloatAxioms.ltb_spec.
  intros H.
  assert (Hb : FloatOps.Prim2SF b = SpecFloat.S754_nan).
  { destruct (FloatOps.Prim2SF b) as [s | s | | s m e]; try reflexivity;
      exfalso; revert H; unfold SpecFloat.SFeqb; simpl.
    - discriminate.
    - destruct s; discriminate.
    - destruct s; rewrite Z.compare_refl;
        change (Pos.compare_cont Eq m m) with (Pos.compare m m);
        rewrite Pos.compare_refl; discriminate. }
  rewrite Hb. unfold SpecFloat.SFltb.
  destruct (FloatOps.Prim2SF a); reflexivity.
Qed.

Lemma Sorted_app_last {A : Type} (rel : A -> A -> Prop) (l1 l2 : list A) :
  Sorted rel l1 -> Forall (fun b => forall a, rel a b) l2 ->
  Sorted rel (l1 ++ l2).
Proof.
  intros Hs Hall.
  assert (H2 : Sorted rel l2).
  { clear Hs. induction l2 as [| b l2 IH]; constructor.
    - apply IH. now inversion Hall.
    - inversion Hall as [| ? ? _ Hall']; subst.
      destruct l2 as [| c l2]; constructor.
      exact (Forall_inv Hall' b). }
  induction Hs as [| x l1 Hs IH Hhd]; simpl; [exact H2 |].
  constructor; [exact IH |].
  destruct Hhd as [| y l1 Hxy]; simpl.
  - destruct l2 as [| b l2]; constructor.
    now apply (Forall_inv Hall).
  - now constructor.
Qed.

Lemma filter_within {A : Type} (f g : A -> bool) (l : list A) :
  (forall a, f a = true -> g a = true) ->
  filter f (filter g l) = filter f l.
Proof.
  intros H. induction l as [| a l IH]; [reflexivity |].
  simpl. destruct (g a) eqn:Eg; simpl.
  - now rewrite IH.
  - destruct (f a) eqn:Ef; [| exact IH].
    rewrite (H a Ef) in Eg. discriminate.
Qed.

Lemma filter_without {A : Type} (f g : A -> bool) (l : list A) :
  (forall a, f a = true -> g a = false) ->
  filter f (filter g l) = [].
Proof.
  intros H. induction l as [| a l IH]; [reflexivity |].
  simpl. destruct (g a) eqn:Eg; [| exact IH].
  simpl. destruct (f a) eqn:Ef; [| exact IH].
  rewrite (H a Ef) in Eg. discriminate.
Qed.



End DoubleFacts.
